(** * botcbot: the nomination, vote and ability-gating engine

    A shallow embedding of [lib/logic/Vote.py], [lib/logic/Day.py] and
    [lib/logic/charcreation.py].  Python objects with identity (players,
    votes, effects) are references into maps held by the game state; every
    method is a function from game state to an outcome that carries the
    state reached, also when an exception escapes. *)

From Stdlib Require Import QArith Qround Qminmax.
From stdpp Require Import gmap strings list fin_maps pretty.

Open Scope Z_scope.
Open Scope nat_scope.

(** ** Python lists *)

Module Py.

(** [l.index(x)]: the earliest position holding [x]; [None] stands for the
    [ValueError] Python raises when [x] does not occur. *)
Fixpoint index {A} `{EqDecision A} (x : A) (l : list A) : option nat :=
  match l with
  | [] => None
  | y :: l' => if decide (x = y) then Some 0 else S <$> index x l'
  end.

(** [l.insert(i, x)] for [0 <= i]; past the end Python appends. *)
Definition insert {A} (i : nat) (x : A) (l : list A) : list A :=
  take i l ++ x :: drop i l.

(** A Python [str] is a sequence of code points.  A [string] here holds
    the UTF-8 encoding of the text, so a code point is a lead byte with the
    bytes [10xxxxxx] that continue it.  [continues s] tells that [s] starts
    with such a continuation byte. *)
Definition continues (s : string) : bool :=
  match s with
  | String c _ => let n := Ascii.nat_of_ascii c in (128 <=? n) && (n <? 192)
  | EmptyString => false
  end.

(** The code points of a text, each as the bytes that encode it. *)
Fixpoint code_points (s : string) : list string :=
  match s with
  | EmptyString => []
  | String c s' =>
      match code_points s' with
      | cp :: rest =>
          if continues cp then String c cp :: rest
          else String c EmptyString :: cp :: rest
      | [] => [String c EmptyString]
      end
  end.

Definition join (l : list string) : string := foldr String.append EmptyString l.

(** [len(s)] *)
Definition len (s : string) : nat := length (code_points s).

(** [s[:-n]] and [s[-n:]] on a string, for [n > 0]: the slices count code
    points, and a text shorter than [n] gives the empty text and the whole
    text. *)
Definition str_but_last (n : nat) (s : string) : string :=
  join (take (len s - n) (code_points s)).

Definition str_last (n : nat) (s : string) : string :=
  join (drop (len s - n) (code_points s)).

(** [s.capitalize()] on a text whose letters are ASCII; the bytes of other
    code points are kept as they are. *)
Definition upper (c : Ascii.ascii) : Ascii.ascii :=
  let n := Ascii.nat_of_ascii c in
  if (97 <=? n) && (n <=? 122) then Ascii.ascii_of_nat (n - 32) else c.

Definition lower (c : Ascii.ascii) : Ascii.ascii :=
  let n := Ascii.nat_of_ascii c in
  if (65 <=? n) && (n <=? 90) then Ascii.ascii_of_nat (n + 32) else c.

Fixpoint map_string (f : Ascii.ascii → Ascii.ascii) (s : string) : string :=
  match s with
  | EmptyString => EmptyString
  | String c s' => String (f c) (map_string f s')
  end.

Definition capitalize (s : string) : string :=
  match s with
  | EmptyString => EmptyString
  | String c s' => String (upper c) (map_string lower s')
  end.

(** The line feed of ["\n"]. *)
Definition nl : string := String (Ascii.ascii_of_nat 10) EmptyString.

(** The double quote character. *)
Definition quote : string := String (Ascii.ascii_of_nat 34) EmptyString.

(** [str(n)] for an integer. *)
Definition str (n : Z) : string := pretty n.

(** [needle in s] for strings. *)
Fixpoint contains (needle s : string) : bool :=
  String.prefix needle s ||
  match s with
  | EmptyString => false
  | String _ s' => contains needle s'
  end.

(** [max(a, b)] on numbers: the first argument unless the second is larger. *)
Definition max (a b : Q) : Q :=
  match (a ?= b)%Q with Lt => b | _ => a end.

End Py.

(** ** Data model *)

(** A player, a vote and an effect are Python objects compared by identity. *)
Definition Player := nat.
Definition VoteRef := nat.
Definition EffectRef := nat.

Inductive Exn : Type :=
  | ValueError
  | IndexError
  | AttributeError
  | AssertionError
  | NotFound
  | AlreadyNomniatedError
  | InvalidMorningTargetError
  | BadArgument (msg : string).

(** The attributes of a [Player] that the engine writes. *)
Record PlayerData := mkPlayerData {
  nominations_today : Z;
  has_been_nominated : bool;
  dead_votes : Z;
  effects : list EffectRef;
}.

#[export] Instance PlayerData_inhabited : Inhabited PlayerData :=
  populate (mkPlayerData 0 false 0 []).

(** What [charcreation] needs to know of an effect class: whether it is a
    subclass of [Dead], which of the deleting decorators were applied to it,
    and the [days] attribute a decorator may have set on the class. *)
Record EffectClass := mkEffectClass {
  subclass_of_Dead : bool;
  has_evening_delete : bool;
  has_morning_delete : bool;
  class_days : option Z;
}.

(** An [Effect] object: its class, and the instance attributes [days]
    (absent until assigned) and [disabled]. *)
Record EffectData := mkEffectData {
  effect_class : EffectClass;
  instance_days : option Z;
  disabled : bool;
}.

#[export] Instance EffectData_inhabited : Inhabited EffectData :=
  populate (mkEffectData (mkEffectClass false false false None) None false).

Record Vote := mkVote {
  nominee : Player;
  nominator : Player;
  traveler : bool;
  storyteller : bool;
  announcements : list Z;
  prevotes : gmap Player bool;
  position : nat;
  votes : Z;
  voted : list Player;
  order : list Player;
  majority : Q;
}.

Record Day := mkDay {
  is_pms : bool;
  is_noms : bool;
  past_votes : list VoteRef;
  current_vote : option VoteRef;
  about_to_die : option (Player * Z * Z);
  vote_end_messages : list Z;
}.

(** Modelled from the spec: the messaging collaborator ([lib.utils.safe_send]
    and the chat channel) is not part of the sources.  A channel message has
    a stable identifier, a content that can be edited and a pin state; what
    is sent elsewhere (to a member or to the invoking context) is recorded. *)
Record Message := mkMessage {
  content : string;
  pinned : bool;
}.

Inductive Event : Type :=
  | SentMember (p : Player) (text : string)
  | SentCtx (text : string)
  | StatusUpdated
  | Exiled (p : Player).

Record Game := mkGame {
  seating_order : list Player;
  storytellers : list Player;
  day_number : Z;
  current_day : option Day;
  past_days : list Day;
  players : gmap Player PlayerData;
  vote_objs : gmap VoteRef Vote;
  effect_objs : gmap EffectRef EffectData;
  channel : gmap Z Message;
  next_message : Z;
  outbox : list Event;
  inbox : list string;
}.

Definition set_seating_order (l : list Player) (g : Game) : Game :=
  mkGame l (storytellers g) (day_number g) (current_day g) (past_days g)
    (players g) (vote_objs g) (effect_objs g) (channel g) (next_message g)
    (outbox g) (inbox g).

Definition set_current_day (d : option Day) (g : Game) : Game :=
  mkGame (seating_order g) (storytellers g) (day_number g) d (past_days g)
    (players g) (vote_objs g) (effect_objs g) (channel g) (next_message g)
    (outbox g) (inbox g).

Definition set_past_days (l : list Day) (g : Game) : Game :=
  mkGame (seating_order g) (storytellers g) (day_number g) (current_day g) l
    (players g) (vote_objs g) (effect_objs g) (channel g) (next_message g)
    (outbox g) (inbox g).

Definition set_players (m : gmap Player PlayerData) (g : Game) : Game :=
  mkGame (seating_order g) (storytellers g) (day_number g) (current_day g)
    (past_days g) m (vote_objs g) (effect_objs g) (channel g) (next_message g)
    (outbox g) (inbox g).

Definition set_vote_objs (m : gmap VoteRef Vote) (g : Game) : Game :=
  mkGame (seating_order g) (storytellers g) (day_number g) (current_day g)
    (past_days g) (players g) m (effect_objs g) (channel g) (next_message g)
    (outbox g) (inbox g).

Definition set_effect_objs (m : gmap EffectRef EffectData) (g : Game) : Game :=
  mkGame (seating_order g) (storytellers g) (day_number g) (current_day g)
    (past_days g) (players g) (vote_objs g) m (channel g) (next_message g)
    (outbox g) (inbox g).

Definition set_channel (m : gmap Z Message) (n : Z) (g : Game) : Game :=
  mkGame (seating_order g) (storytellers g) (day_number g) (current_day g)
    (past_days g) (players g) (vote_objs g) (effect_objs g) m n
    (outbox g) (inbox g).

Definition set_outbox (l : list Event) (g : Game) : Game :=
  mkGame (seating_order g) (storytellers g) (day_number g) (current_day g)
    (past_days g) (players g) (vote_objs g) (effect_objs g) (channel g)
    (next_message g) l (inbox g).

Definition set_inbox (l : list string) (g : Game) : Game :=
  mkGame (seating_order g) (storytellers g) (day_number g) (current_day g)
    (past_days g) (players g) (vote_objs g) (effect_objs g) (channel g)
    (next_message g) (outbox g) l.

Definition player_data (g : Game) (p : Player) : PlayerData := players g !!! p.

Definition update_player (p : Player) (f : PlayerData → PlayerData) (g : Game) : Game :=
  set_players (<[p := f (player_data g p)]> (players g)) g.

(** ** Outcomes and the engine monad *)

Inductive outcome (A : Type) : Type :=
  | Ok (a : A) (g : Game)
  | Raised (e : Exn) (g : Game)
  | Awaiting (g : Game)
  | OutOfFuel.

Arguments Ok {A} a g.
Arguments Raised {A} e g.
Arguments Awaiting {A} g.
Arguments OutOfFuel {A}.

Definition M (A : Type) : Type := Game → outcome A.

Definition ret {A} (a : A) : M A := λ g, Ok a g.

Definition bind {A B} (m : M A) (k : A → M B) : M B :=
  λ g, match m g with
       | Ok a g' => k a g'
       | Raised e g' => Raised e g'
       | Awaiting g' => Awaiting g'
       | OutOfFuel => OutOfFuel
       end.

Definition raise {A} (e : Exn) : M A := λ g, Raised e g.
Definition get : M Game := λ g, Ok g g.
Definition modify (f : Game → Game) : M unit := λ g, Ok tt (f g).

Declare Scope engine_scope.
Delimit Scope engine_scope with engine.
Notation "x <- m ;; k" := (bind m (λ x, k))
  (at level 100, m at next level, right associativity) : engine_scope.
Notation "m ;;; k" := (bind m (λ _, k))
  (at level 100, right associativity) : engine_scope.
Open Scope engine_scope.

(** [for x in l: body(x)] over a list that the body does not mutate. *)
Fixpoint for_each {A} (l : list A) (body : A → M unit) : M unit :=
  match l with
  | [] => ret tt
  | x :: l' => body x ;;; for_each l' body
  end.

(** Values passed through [*args] and [**kwargs]. *)
Inductive Value : Type :=
  | VBool (b : bool)
  | VStr (s : string)
  | VInt (n : Z).

(** ** Collaborators

    [lib.logic.Player], [lib.logic.Character], [lib.logic.Effect],
    [lib.preferences], [lib.logic.playerconverter] and [lib.utils] are not
    among the sources.  What the engine calls on them is taken as an
    interface; every result below holds for each implementation of it. *)
Class Collaborators := {
  (** [player.is_status(game, name)] *)
  is_status : Game → Player → string → bool;
  (** [player.ghost(game)] and [player.ghost(game, registers=r)] *)
  ghost : Game → Player → option bool → bool;
  (** [player.functioning(game)] *)
  functioning : Game → Player → bool;
  (** [player.can_vote(game, traveler)] *)
  can_vote : Game → Player → bool → bool;
  (** [player.vote_value(game, traveler)] *)
  vote_value : Game → Player → bool → Z;
  (** [player.can_nominate(game)] *)
  can_nominate : Game → Player → bool;
  (** [player.can_be_nominated(game, nominator)] *)
  can_be_nominated : Game → Player → Player → bool;
  (** [await player.add_nomination(ctx)] *)
  add_nomination : Player → M unit;
  (** [player.nick], [player.member.mention], [player.epithet] *)
  nick : Player → string;
  mention : Player → string;
  epithet : Player → string;
  (** [player.formatted_epithet(epithet_string)] *)
  formatted_epithet : Player → string → string;
  (** [load_preferences(player).pronouns[0]] and [...pronouns[2]] and [...pronouns[5]] *)
  pronoun_subjective : Player → string;
  pronoun_possessive : Player → string;
  pronoun_plural : Player → bool;
  (** [ctx.bot.player_role.mention] *)
  player_role_mention : string;
  (** [await player.character.exile(ctx)] *)
  character_exile : Player → M unit;
  (** [await player.character.nomination(ctx, nominee, nominator)] *)
  character_nomination : Player → Player → Player → M bool;
  (** [await effect.nomination(ctx, nominee, nominator)] *)
  effect_nomination : EffectRef → Player → Player → M bool;
  (** [effect.delete(game)] and [effect.disable(game)] *)
  effect_delete : EffectRef → M unit;
  effect_disable : EffectRef → M unit;
  (** [Effect.evening_cleanup] and [Effect.morning_cleanup] of the base class *)
  base_evening_cleanup : EffectRef → M unit;
  base_morning_cleanup : EffectRef → M unit;
  (** [target.add_effect(game, effect, source)] *)
  add_effect : Player → EffectClass → Player → M EffectRef;
  (** [await to_player(ctx, text, condition=..., **kwargs)]: the keyword
      arguments given, and the condition if one is given; a condition is a
      callable that may be handed a player or [None] *)
  to_player : string → list (string * Value) → option (option Player → M bool) → M Player;
  (** whether an exception of [lib.exceptions] is a [commands.BadArgument],
      and [str(e)] for it *)
  subclass_of_BadArgument : Exn → bool;
  exn_str : Exn → string;
  (** [safe_bug_report(ctx)] *)
  safe_bug_report : Game → bool;
  (** the truth value [get_bool_input] reads from an answer *)
  answer_is_yes : string → bool;
  (** [generate_message_tally(ctx, ...)], by vote-end time or by day *)
  message_tally : Game → option Z → string;
  (** [ctx.bot.game.script.has_atheist] *)
  has_atheist : Game → bool;
  (** [await ctx.bot.game.start_night(ctx)] *)
  start_night : M unit;
}.

(** ** Messaging *)

(** Modelled from the spec: [await safe_send(ctx.bot.channel, text, pin=pin)]
    of [lib.utils], which is not among the sources; the message gets the
    next identifier, which is returned. *)
Definition send_channel (text : string) (pin : bool) : M Z :=
  λ g, let idn := next_message g in
       Ok idn (set_channel (<[idn := mkMessage text pin]> (channel g)) (idn + 1)%Z g).

Definition emit (e : Event) : M unit :=
  modify (λ g, set_outbox (outbox g ++ [e]) g).

(** Modelled from the spec: [await safe_send(player.member, text)]. *)
Definition send_member (p : Player) (text : string) : M unit :=
  emit (SentMember p text).

(** Modelled from the spec: [await safe_send(ctx, text)]. *)
Definition send_ctx (text : string) : M unit :=
  emit (SentCtx text).

(** Modelled from the spec: [await ctx.bot.channel.fetch_message(idn)] of the
    chat transport; an unknown identifier raises. *)
Definition fetch_message (idn : Z) : M Message :=
  λ g, match channel g !! idn with
       | Some m => Ok m g
       | None => Raised NotFound g
       end.

(** Modelled from the spec: [await msg.edit(content=text)]. *)
Definition edit_message (idn : Z) (text : string) : M unit :=
  modify (λ g, set_channel (alter (λ m, mkMessage text (pinned m)) idn (channel g))
                 (next_message g) g).

(** Modelled from the spec: [await msg.unpin()]. *)
Definition unpin_message (idn : Z) : M unit :=
  modify (λ g, set_channel (alter (λ m, mkMessage (content m) false) idn (channel g))
                 (next_message g) g).

(** Modelled from the spec: [await get_input(ctx, question)] of [lib.utils];
    the question goes out and the next answer is consumed; with no answer
    left the engine stays suspended. *)
Definition get_input (question : string) : M string :=
  send_ctx question ;;;
  (λ g, match inbox g with
        | [] => Awaiting g
        | a :: rest => Ok a (set_inbox rest g)
        end).

(** The unpin loop that closes [Vote.end] and [Vote.cancel]. *)
Definition unpin_all (ids : list Z) : M unit :=
  for_each ids (λ idn,
    msg <- fetch_message idn ;;
    if pinned msg then unpin_message idn else ret tt).

(** ** The day's fields, read through [ctx.bot.game.current_day] *)

(** An attribute read on [current_day] raises when there is no day. *)
Definition the_day : M Day :=
  g <- get ;;
  match current_day g with
  | Some d => ret d
  | None => raise AttributeError
  end.

Definition modify_day (f : Day → Day) : M unit :=
  d <- the_day ;; modify (set_current_day (Some (f d))).

Definition set_is_pms (b : bool) (d : Day) : Day :=
  mkDay b (is_noms d) (past_votes d) (current_vote d) (about_to_die d)
    (vote_end_messages d).

Definition set_is_noms (b : bool) (d : Day) : Day :=
  mkDay (is_pms d) b (past_votes d) (current_vote d) (about_to_die d)
    (vote_end_messages d).

Definition set_past_votes (l : list VoteRef) (d : Day) : Day :=
  mkDay (is_pms d) (is_noms d) l (current_vote d) (about_to_die d)
    (vote_end_messages d).

Definition set_current_vote (v : option VoteRef) (d : Day) : Day :=
  mkDay (is_pms d) (is_noms d) (past_votes d) v (about_to_die d)
    (vote_end_messages d).

Definition set_about_to_die (a : option (Player * Z * Z)) (d : Day) : Day :=
  mkDay (is_pms d) (is_noms d) (past_votes d) (current_vote d) a
    (vote_end_messages d).

Definition set_vote_end_messages (l : list Z) (d : Day) : Day :=
  mkDay (is_pms d) (is_noms d) (past_votes d) (current_vote d) (about_to_die d) l.

(** ** Vote objects *)

#[export] Instance Vote_inhabited : Inhabited Vote :=
  populate (mkVote 0 0 false false [] ∅ 0 0%Z [] [] 0%Q).

(** Attribute reads and writes on a vote object [self]. *)
Definition vote_obj (g : Game) (self : VoteRef) : Vote := vote_objs g !!! self.

Definition get_vote (self : VoteRef) : M Vote := λ g, Ok (vote_obj g self) g.

Definition update_vote (self : VoteRef) (f : Vote → Vote) : M unit :=
  modify (λ g, set_vote_objs (<[self := f (vote_obj g self)]> (vote_objs g)) g).

Definition set_announcements (l : list Z) (v : Vote) : Vote :=
  mkVote (nominee v) (nominator v) (traveler v) (storyteller v) l (prevotes v)
    (position v) (votes v) (voted v) (order v) (majority v).

Definition set_prevotes (m : gmap Player bool) (v : Vote) : Vote :=
  mkVote (nominee v) (nominator v) (traveler v) (storyteller v) (announcements v) m
    (position v) (votes v) (voted v) (order v) (majority v).

Definition set_position (n : nat) (v : Vote) : Vote :=
  mkVote (nominee v) (nominator v) (traveler v) (storyteller v) (announcements v)
    (prevotes v) n (votes v) (voted v) (order v) (majority v).

Definition set_votes (n : Z) (v : Vote) : Vote :=
  mkVote (nominee v) (nominator v) (traveler v) (storyteller v) (announcements v)
    (prevotes v) (position v) n (voted v) (order v) (majority v).

Definition set_voted (l : list Player) (v : Vote) : Vote :=
  mkVote (nominee v) (nominator v) (traveler v) (storyteller v) (announcements v)
    (prevotes v) (position v) (votes v) l (order v) (majority v).

Definition set_order (l : list Player) (v : Vote) : Vote :=
  mkVote (nominee v) (nominator v) (traveler v) (storyteller v) (announcements v)
    (prevotes v) (position v) (votes v) (voted v) l (majority v).

Section VoteConstruction.
Context `{Collaborators}.

(** [Vote.__init__], lines 70-79: the order before any duplicate is added.
    For a vote on the storytellers it is the seating order itself (the same
    list object); otherwise the seating order rotated to end at the nominee. *)
Definition Vote_initial_order (g : Game) (nominee : Player) (on_storyteller : bool)
  : option (list Player) :=
  if on_storyteller then Some (seating_order g)
  else i ← Py.index nominee (seating_order g);
       Some (drop (i + 1) (seating_order g) ++ take (i + 1) (seating_order g)).

(** The players of [order] for whom [not player.ghost(game, registers=True)]. *)
Definition non_ghosts (g : Game) (ord : list Player) : list Player :=
  List.filter (λ player, negb (ghost g player (Some true))) ord.

(** [Vote.__init__], lines 81-98. *)
Definition Vote_initial_majority (g : Game) (d : Day) (is_traveler : bool)
    (ord : list Player) : Q :=
  if is_traveler then (inject_Z (Z.of_nat (length ord)) / 2)%Q
  else
    let m := (inject_Z (Z.of_nat (length (non_ghosts g ord))) / 2)%Q in
    match about_to_die d with
    | Some (_, tally, _) => Py.max m (inject_Z (tally + 1))
    | None => m
    end.

(** [Vote.__init__] up to line 98: every field is set, and [order] holds no
    duplicate yet. *)
Definition Vote_begin (nominee nominator : Player) : M Vote :=
  g <- get ;;
  let is_traveler := is_status g nominee "traveler" in
  let on_storyteller := is_status g nominee "storyteller" in
  match current_day g with
  | None => raise AssertionError
  | Some d =>
      match Vote_initial_order g nominee on_storyteller with
      | None => raise ValueError
      | Some ord =>
          ret (mkVote nominee nominator is_traveler on_storyteller [] ∅ 0 0%Z []
                 ord (Vote_initial_majority g d is_traveler ord))
      end
  end.

(** [Vote.__init__], lines 100-103:
<<
    for player in self.order:
        if player.is_status(game, "can_vote_twice"):
            self.order.insert(self.order.index(player), player)
>>
    The iterator holds an index [i] into the list it walks, and the body
    inserts into that same list.  [aliased] tells that [self.order] is the
    game's seating order object, which the insertion then changes too.  One
    unit of fuel is one turn of the loop. *)
Fixpoint Vote_twice_loop (fuel : nat) (aliased : bool) (i : nat) (ord : list Player)
  : M (list Player) :=
  match ord !! i with
  | None => ret ord
  | Some player =>
      match fuel with
      | 0 => λ _, OutOfFuel
      | S fuel' =>
          g <- get ;;
          if is_status g player "can_vote_twice" then
            match Py.index player ord with
            | None => raise ValueError
            | Some j =>
                let ord' := Py.insert j player ord in
                (if aliased then modify (set_seating_order ord') else ret tt) ;;;
                Vote_twice_loop fuel' aliased (S i) ord'
            end
          else Vote_twice_loop fuel' aliased (S i) ord
      end
  end.

(** [Vote(game, nominee, nominator)]. *)
Definition Vote_init (fuel : nat) (nominee nominator : Player) : M Vote :=
  v <- Vote_begin nominee nominator ;;
  ord <- Vote_twice_loop fuel (storyteller v) 0 (order v) ;;
  ret (set_order ord v).

End VoteConstruction.

(** ** Resolving and cancelling a vote *)

Section VoteResolution.
Context `{Collaborators}.

(** [Day.open_pms], [Day.open_noms], [Day.close_pms], [Day.close_noms],
    each called on [ctx.bot.game.current_day]. *)
Definition notify_storytellers (text : string) : M unit :=
  g <- get ;;
  for_each (storytellers g) (λ st, send_member st text) ;;;
  emit StatusUpdated.

Definition Day_open_pms : M unit :=
  modify_day (set_is_pms true) ;;; notify_storytellers "PMs are now open.".

Definition Day_open_noms : M unit :=
  modify_day (set_is_noms true) ;;; notify_storytellers "Nominations are now open.".

Definition Day_close_pms : M unit :=
  modify_day (set_is_pms false) ;;; notify_storytellers "PMs are now closed.".

Definition Day_close_noms : M unit :=
  modify_day (set_is_noms false) ;;; notify_storytellers "Nominations are now closed.".

(** [self.votes >= self.majority] *)
Definition vote_result (v : Vote) : bool := Qle_bool (majority v) (inject_Z (votes v)).

(** [Vote._generate_vote_end_message] *)
Definition Vote_generate_vote_end_message (v : Vote) : string * bool :=
  let result := vote_result v in
  let result_type := if traveler v then "exiled" else "executed" in
  let pronoun_string :=
    Py.capitalize (pronoun_subjective (nominee v))
    +:+ (if pronoun_plural (nominee v) then " are" else " is") in
  let message_text :=
    Py.str (votes v) +:+ " votes on " +:+ nick (nominee v)
    +:+ " (nominated by " +:+ nick (nominator v) +:+ "). "
    +:+ pronoun_string +:+ (if result then "" else " not")
    +:+ " about to be " +:+ result_type +:+ "." in
  (fold_left (λ text voter, text +:+ Py.nl +:+ "- " +:+ nick voter) (voted v) message_text,
   result).

(** The text [Vote._generate_vote_end_message] builds, as a function of the
    result it announces: the sentence, then one line per yes-voter. *)
Definition vote_end_text (v : Vote) (result : bool) : string :=
  let result_type := if traveler v then "exiled" else "executed" in
  let pronoun_string :=
    Py.capitalize (pronoun_subjective (nominee v))
    +:+ (if pronoun_plural (nominee v) then " are" else " is") in
  let message_text :=
    Py.str (votes v) +:+ " votes on " +:+ nick (nominee v)
    +:+ " (nominated by " +:+ nick (nominator v) +:+ "). "
    +:+ pronoun_string +:+ (if result then "" else " not")
    +:+ " about to be " +:+ result_type +:+ "." in
  fold_left (λ text voter, text +:+ Py.nl +:+ "- " +:+ nick voter) (voted v) message_text.

(** That text up to the verdict, and the lines that list the yes-voters. *)
Definition vote_end_head (v : Vote) : string :=
  Py.str (votes v) +:+ " votes on " +:+ nick (nominee v)
  +:+ " (nominated by " +:+ nick (nominator v) +:+ "). "
  +:+ Py.capitalize (pronoun_subjective (nominee v))
  +:+ (if pronoun_plural (nominee v) then " are" else " is").

Definition voter_lines (l : list Player) : string :=
  foldr (λ voter rest, Py.nl +:+ "- " +:+ nick voter +:+ rest) "" l.

(** [Vote._send_vote_end_message]: the id of the end message and the result. *)
Definition Vote_send_vote_end_message (self : VoteRef) : M (Z * bool) :=
  v <- get_vote self ;;
  let '(message_text, result) := Vote_generate_vote_end_message v in
  end_msg <- send_channel message_text true ;;
  modify_day (λ d, set_vote_end_messages (vote_end_messages d ++ [end_msg]) d) ;;;
  ret (end_msg, result).

(** The edit of line 251: [msg.content[:-22] + " not" + msg.content[-22:]]. *)
Definition negate_announcement (text : string) : string :=
  Py.str_but_last 22 text +:+ " not" +:+ Py.str_last 22 text.

(** [Vote._update_old_vote_end_message] *)
Definition Vote_update_old_vote_end_message (self : VoteRef) (result : bool) : M unit :=
  d <- the_day ;;
  match about_to_die d with
  | None => ret tt
  | Some (_, tally, announcement) =>
      v <- get_vote self ;;
      if result || bool_decide (votes v = tally) then
        msg <- fetch_message announcement ;;
        edit_message announcement (negate_announcement (content msg)) ;;;
        (if negb result then modify_day (set_about_to_die None) else ret tt)
      else ret tt
  end.

(** [Vote.end] *)
Definition Vote_end (self : VoteRef) : M unit :=
  d <- the_day ;;
  if bool_decide (current_vote d = Some self) then
    modify_day (λ d, set_past_votes (past_votes d ++ [self]) d) ;;;
    modify_day (set_current_vote None) ;;;
    r <- Vote_send_vote_end_message self ;;
    let '(end_msg, result) := r in
    v <- get_vote self ;;
    (if traveler v && result then character_exile (nominee v) else ret tt) ;;;
    Day_open_pms ;;;
    Day_open_noms ;;;
    v <- get_vote self ;;
    (if negb (traveler v) then
       Vote_update_old_vote_end_message self result ;;;
       v <- get_vote self ;;
       (if result
        then modify_day (set_about_to_die (Some (nominee v, votes v, end_msg)))
        else ret tt)
     else ret tt) ;;;
    v <- get_vote self ;;
    unpin_all (announcements v)
  else ret tt.

(** [Vote.cancel] *)
Definition Vote_cancel (self : VoteRef) : M unit :=
  d <- the_day ;;
  if bool_decide (current_vote d = Some self) then
    modify_day (set_current_vote None) ;;;
    send_channel "Nomination cancelled." false ;;;
    Day_open_pms ;;;
    Day_open_noms ;;;
    v <- get_vote self ;;
    (if negb (traveler v) || storyteller v then
       modify (update_player (nominator v)
                 (λ p, mkPlayerData (nominations_today p - 1) (has_been_nominated p)
                         (dead_votes p) (effects p)))
     else ret tt) ;;;
    v <- get_vote self ;;
    modify (update_player (nominee v)
              (λ p, mkPlayerData (nominations_today p) false (dead_votes p) (effects p))) ;;;
    v <- get_vote self ;;
    unpin_all (announcements v)
  else ret tt.

End VoteResolution.

(** ** Casting votes *)

Section VoteSequencing.
Context `{Collaborators}.

(** [Vote.to_vote]: [self.order[self.position]]. *)
Definition Vote_to_vote (self : VoteRef) : M Player :=
  v <- get_vote self ;;
  match order v !! position v with
  | Some p => ret p
  | None => raise IndexError
  end.

(** Modelled from the spec: [await get_bool_input(ctx, question)] of
    [lib.utils], a yes-or-no question. *)
Definition get_bool_input (question : string) : M bool :=
  a <- get_input question ;; ret (answer_is_yes a).

(** [Vote.vote], with [call_next] the method it hands over to. *)
Definition Vote_vote_with (call_next : VoteRef → M unit)
    (self : VoteRef) (voter : Player) (vt : bool) : M unit :=
  to_vote <- Vote_to_vote self ;;
  if negb (bool_decide (voter = to_vote)) then ret tt
  else
    update_vote self (λ v, set_position (position v + 1) v) ;;;
    (if vt then
       g <- get ;;
       update_vote self (λ v, set_votes (votes v + vote_value g voter (traveler v)) v) ;;;
       g <- get ;;
       v <- get_vote self ;;
       (if negb (traveler v) && ghost g voter (Some true)
           && negb (is_status g voter "can_dead_vote_without_token")
        then modify (update_player voter
                       (λ p, mkPlayerData (nominations_today p) (has_been_nominated p)
                               (dead_votes p - 1) (effects p)))
        else ret tt) ;;;
       update_vote self (λ v, set_voted (voted v ++ [voter]) v)
     else ret tt) ;;;
    v <- get_vote self ;;
    msg <- send_channel
             (nick voter +:+ " votes " +:+ (if vt then "yes" else "no") +:+ ". "
              +:+ Py.str (votes v) +:+ " votes.") true ;;
    update_vote self (λ v, set_announcements (announcements v ++ [msg]) v) ;;;
    v <- get_vote self ;;
    if negb (bool_decide (position v = length (order v)))
    then call_next self
    else Vote_end self.

(** [Vote.call_next]; each unit of fuel is one voter called. *)
Fixpoint Vote_call_next (fuel : nat) (self : VoteRef) : M unit :=
  match fuel with
  | 0 => λ _, OutOfFuel
  | S fuel' =>
      to_vote <- Vote_to_vote self ;;
      g <- get ;;
      v <- get_vote self ;;
      if negb (can_vote g to_vote (traveler v)) then
        Vote_vote_with (Vote_call_next fuel') self to_vote false ;;;
        to_vote' <- Vote_to_vote self ;;
        send_member to_vote' "You have no dead votes. Voting no."
      else
        match prevotes v !! to_vote with
        | Some vt => Vote_vote_with (Vote_call_next fuel') self to_vote vt
        | None =>
            send_channel (mention to_vote +:+ ", your vote on " +:+ nick (nominee v) +:+ ".")
              false ;;;
            ret tt
        end
  end.

(** [Vote.vote] *)
Definition Vote_vote (fuel : nat) (self : VoteRef) (voter : Player) (vt : bool) : M unit :=
  Vote_vote_with (Vote_call_next fuel) self voter vt.

(** [Vote.prevote] *)
Definition Vote_prevote (fuel : nat) (self : VoteRef) (voter : Player) (vt : bool)
  : M unit :=
  to_vote <- Vote_to_vote self ;;
  if bool_decide (voter = to_vote) then
    now <- get_bool_input "It is currently your vote. Would you like to vote now?" ;;
    if now then Vote_vote fuel self voter vt
    else send_ctx "Vote cancelled."
  else
    v <- get_vote self ;;
    match Py.index voter (order v) with
    | None => raise ValueError
    | Some i =>
        if i <? position v then send_ctx "You have already voted."
        else
          update_vote self (λ v, set_prevotes (<[voter := vt]> (prevotes v)) v) ;;;
          send_ctx "Successfully prevoted."
    end.

End VoteSequencing.

(** ** The day: nominations

    The methods of [Day] are called on the game's current day, so [self]
    is read through [ctx.bot.game.current_day]. *)

Section DayController.
Context `{Collaborators}.

(** [_determine_nominee] *)
Definition determine_nominee (nominee_str : string) : M Player :=
  g <- get ;;
  if Py.contains "storyteller" nominee_str && has_atheist g then
    match storytellers g with
    | st :: _ => ret st
    | [] => raise IndexError
    end
  else to_player nominee_str
         [("only_one", VBool true); ("includes_storytellers", VBool (has_atheist g))]
         None.

(** [_check_valid_nominator] *)
Definition check_valid_nominator (nominator nominee : Player) : M unit :=
  g <- get ;;
  if negb (can_nominate g nominator
           || is_status g nominee "traveler"
           || is_status g nominator "storyteller")
  then raise AlreadyNomniatedError
  else ret tt.

(** [_check_valid_nominee] *)
Definition check_valid_nominee (nominator nominee : Player) : M unit :=
  g <- get ;;
  if is_status g nominee "storyteller" then
    for_each (storytellers g) (λ st,
      if negb (can_be_nominated g st nominator)
      then raise (BadArgument "The storytellers cannot be nominated today.")
      else ret tt)
  else if negb (can_be_nominated g nominee nominator)
  then raise (BadArgument (nick nominee +:+ " cannot be nominated today."))
  else ret tt.

(** [Day.nominate], lines 75-76: the inner loop over the snapshot
    [effect_list], threading [proceed]. *)
Fixpoint nominate_effect_hooks (effect_list : list EffectRef)
    (nominee nominator : Player) (proceed : bool) : M bool :=
  match effect_list with
  | [] => ret proceed
  | effect :: rest =>
      b <- effect_nomination effect nominee nominator ;;
      nominate_effect_hooks rest nominee nominator (b && proceed)
  end.

(** [Day.nominate], lines 70-76: the loop over the seating order.  The
    seating order is the list as it stands when the loop starts; a player's
    effects are copied when that player's turn comes. *)
Fixpoint nominate_player_hooks (seating : list Player)
    (nominee nominator : Player) (proceed : bool) : M bool :=
  match seating with
  | [] => ret proceed
  | player :: rest =>
      b <- character_nomination player nominee nominator ;;
      g <- get ;;
      let effect_list := effects (player_data g player) in
      proceed' <- nominate_effect_hooks effect_list nominee nominator (b && proceed) ;;
      nominate_player_hooks rest nominee nominator proceed'
  end.

(** [Day.nominate], lines 68-76. *)
Definition Day_nominate_hooks (nominee nominator : Player) : M bool :=
  g <- get ;;
  nominate_player_hooks (seating_order g) nominee nominator true.

(** [generate_nomination_message_text] *)
Definition generate_nomination_message_text (g : Game) (nominator nominee : Player)
    (is_traveler proceed : bool) (majority : Z) (about_to_die : option (Player * Z * Z))
  : string :=
  let nominator_mention :=
    if is_status g nominator "storyteller" then "the storytellers" else mention nominator in
  let nominee_mention :=
    if is_status g nominee "storyteller" then "the storytellers" else mention nominee in
  let message_text :=
    if is_traveler then
      let verb := if is_status g nominator "storyteller" then "have" else "has" in
      player_role_mention +:+ ", " +:+ nominator_mention +:+ " " +:+ verb
      +:+ " called for " +:+ nominee_mention +:+ "'s exile."
    else
      let verb := if is_status g nominee "storyteller" then "have" else "has" in
      player_role_mention +:+ ", " +:+ nominee_mention +:+ " " +:+ verb
      +:+ " been nominated by " +:+ nominator_mention +:+ "." in
  if proceed then
    let message_text := message_text +:+ " " +:+ Py.str majority +:+ " to " in
    if is_traveler then message_text +:+ "exile."
    else
      let message_text := message_text +:+ "execute." in
      match about_to_die with
      | Some (_, tally, _) => message_text +:+ " " +:+ Py.str tally +:+ " to tie."
      | None => message_text
      end
  else message_text.

(** [Day._send_message_tally] *)
Definition Day_send_message_tally : M unit :=
  d <- the_day ;;
  match last (vote_end_messages d) with
  | Some idn =>
      fetch_message idn ;;;
      g <- get ;;
      send_channel (message_tally g (Some idn)) false ;;; ret tt
  | None =>
      g <- get ;;
      send_channel (message_tally g None) false ;;; ret tt
  end.

(** [Day.nominate], lines 81-87: adjust the nominator and the nominee. *)
Definition Day_nominate_adjust (nominee nominator : Player) : M unit :=
  g <- get ;;
  (if negb (is_status g nominee "storyteller" || is_status g nominee "traveler")
   then add_nomination nominator
   else ret tt) ;;;
  modify (update_player nominee
            (λ p, mkPlayerData (nominations_today p) true (dead_votes p) (effects p))).

(** [Day.nominate], lines 81-94: the nomination goes ahead, up to the
    construction of the vote.  The new vote object gets a fresh reference. *)
Definition Day_nominate_begin_vote (fuel : nat) (nominee nominator : Player) : M VoteRef :=
  Day_nominate_adjust nominee nominator ;;;
  Day_close_pms ;;;
  Day_close_noms ;;;
  v <- Vote_init fuel nominee nominator ;;
  g <- get ;;
  let self := fresh (dom (vote_objs g)) in
  modify (set_vote_objs (<[self := v]> (vote_objs g))) ;;;
  modify_day (set_current_vote (Some self)) ;;;
  ret self.

(** The specification's reading of the hook loop: every hook of the
    snapshot runs and gives its verdict, whatever the verdicts before it. *)
Fixpoint run_effect_hooks (effect_list : list EffectRef) (nominee nominator : Player)
  : M (list bool) :=
  match effect_list with
  | [] => ret []
  | effect :: rest =>
      b <- effect_nomination effect nominee nominator ;;
      bs <- run_effect_hooks rest nominee nominator ;;
      ret (b :: bs)
  end.

(** Every seated player's hook, followed by the hooks of that player's
    effects, in seating order; all the verdicts, in the order given. *)
Fixpoint run_all_hooks (seating : list Player) (nominee nominator : Player)
  : M (list bool) :=
  match seating with
  | [] => ret []
  | player :: rest =>
      b <- character_nomination player nominee nominator ;;
      g <- get ;;
      bs <- run_effect_hooks (effects (player_data g player)) nominee nominator ;;
      bs' <- run_all_hooks rest nominee nominator ;;
      ret (b :: bs ++ bs')
  end.

(** [Day.nominate], lines 96-115: announcement, tally, first call. *)
Definition Day_nominate_announce (fuel : nat) (self : VoteRef)
    (nominee nominator : Player) : M unit :=
  g <- get ;;
  d <- the_day ;;
  v <- get_vote self ;;
  let message_text :=
    generate_nomination_message_text g nominator nominee (traveler v) true
      (Qceiling (majority v)) (about_to_die d) in
  msg <- send_channel message_text true ;;
  update_vote self (λ v, set_announcements (announcements v ++ [msg]) v) ;;;
  Day_send_message_tally ;;;
  Vote_call_next fuel self.

(** [Day.nominate] *)
Definition Day_nominate (fuel : nat) (nominee_str : string) (nominator : Player) : M unit :=
  nominee <- determine_nominee nominee_str ;;
  check_valid_nominator nominator nominee ;;;
  check_valid_nominee nominator nominee ;;;
  proceed <- Day_nominate_hooks nominee nominator ;;
  if negb proceed then ret tt
  else
    self <- Day_nominate_begin_vote fuel nominee nominator ;;
    Day_nominate_announce fuel self nominee nominator.

End DayController.

(** ** Character creation utilities *)

(** [try: body except exn: handler], for the one exception class named. *)
Definition try_except {A} (body : M A) (catches : Exn → bool) (handler : Exn → M A) : M A :=
  λ g, match body g with
       | Raised e g' => if catches e then handler e g' else Raised e g'
       | r => r
       end.

Definition is_AttributeError (e : Exn) : bool :=
  match e with AttributeError => true | _ => false end.

Definition effect_obj (g : Game) (effect : EffectRef) : EffectData :=
  effect_objs g !!! effect.

(** Reading [effect.days]: the instance attribute, else the class
    attribute, else [AttributeError]. *)
Definition effect_days (g : Game) (effect : EffectRef) : option Z :=
  match instance_days (effect_obj g effect) with
  | Some n => Some n
  | None => class_days (effect_class (effect_obj g effect))
  end.

Definition read_days (effect : EffectRef) : M Z :=
  g <- get ;;
  match effect_days g effect with
  | Some n => ret n
  | None => raise AttributeError
  end.

(** Assigning [effect.days = n] sets the instance attribute. *)
Definition with_days (effect : EffectRef) (n : Z) (g : Game) : Game :=
  set_effect_objs
    (<[effect := mkEffectData (effect_class (effect_obj g effect)) (Some n)
                   (disabled (effect_obj g effect))]> (effect_objs g)) g.

Section CharCreation.
Context `{Collaborators}.

(** [evening_delete] *)
Definition evening_delete (effect : EffectRef) : M unit :=
  try_except
    (n <- read_days effect ;;
     if bool_decide (n = 1%Z) then effect_delete effect
     else modify (with_days effect (n - 1)))
    is_AttributeError
    (λ _, effect_delete effect).

(** [morning_delete] *)
Definition morning_delete (effect : EffectRef) : M unit :=
  try_except
    (n <- read_days effect ;;
     if bool_decide (n = 1%Z) then effect_delete effect
     else modify (with_days effect (n - 1)))
    is_AttributeError
    (λ _, effect_delete effect).

(** [class_decorator_factory]: the method installed on the class runs the
    method already there, if any, and then the wrapper. *)
Definition class_decorator (final_func : option (EffectRef → M unit))
    (wrapper_func : EffectRef → M unit) : EffectRef → M unit :=
  match final_func with
  | Some f => λ effect, f effect ;;; wrapper_func effect
  | None => wrapper_func
  end.

(** [effect.evening_cleanup(game)] and [effect.morning_cleanup(game)] as
    the effect's class defines them. *)
Definition Effect_evening_cleanup (effect : EffectRef) : M unit :=
  g <- get ;;
  if has_evening_delete (effect_class (effect_obj g effect))
  then class_decorator (Some base_evening_cleanup) evening_delete effect
  else base_evening_cleanup effect.

Definition Effect_morning_cleanup (effect : EffectRef) : M unit :=
  g <- get ;;
  if has_morning_delete (effect_class (effect_obj g effect))
  then class_decorator (Some base_morning_cleanup) morning_delete effect
  else base_morning_cleanup effect.

(** [n] cleanup calls in a row. *)
Fixpoint repeat_call (n : nat) (call : M unit) : M unit :=
  match n with
  | 0 => ret tt
  | S n' => call ;;; repeat_call n' call
  end.

(** [Day.end] *)
Definition Day_end : M unit :=
  g <- get ;;
  for_each (seating_order g) (λ player,
    g <- get ;;
    for_each (effects (player_data g player)) Effect_evening_cleanup) ;;;
  d <- the_day ;;
  (match current_vote d with
   | Some self => Vote_cancel self
   | None => ret tt
   end) ;;;
  send_channel (player_role_mention +:+ ", go to sleep!") false ;;;
  Day_send_message_tally ;;;
  d <- the_day ;;
  modify (λ g, set_past_days (past_days g ++ [d]) g) ;;;
  modify (set_current_day None) ;;;
  g <- get ;;
  (if safe_bug_report g then send_ctx "Successfully ended the day." else ret tt) ;;;
  start_night.

(** [_condition_wrapper] *)
Definition condition_wrapper (condition : option Player → M bool)
  : option Player → M bool :=
  λ player,
    match player with
    | Some p => condition (Some p)
    | None => raise InvalidMorningTargetError
    end.

(** The answers [select_target] takes for "no one". *)
Definition none_words : list string :=
  ["none"; "no one"; "no-one"; "noone"; "nobody"; "nothing"; "no"].

(** [except commands.BadArgument as e] and [str(e)]. *)
Definition is_BadArgument (e : Exn) : bool :=
  match e with BadArgument _ => true | _ => subclass_of_BadArgument e end.

Definition str_of_exn (e : Exn) : string :=
  match e with BadArgument msg => msg | _ => exn_str e end.

(** One turn of the [while True] of [select_target]: [None] asks for
    another turn. *)
Definition select_target_turn (question : string) (allow_none : bool)
    (condition : option Player → M bool) : M (option (option Player)) :=
  try_except
    (answer <- get_input question ;;
     if allow_none && bool_decide (Py.map_string Py.lower answer ∈ none_words)
     then ret (Some None)
     else p <- to_player answer [] (Some condition) ;; ret (Some (Some p)))
    is_BadArgument
    (λ e, send_ctx (str_of_exn e +:+ " Please try again. You can also respond with "
                    +:+ Py.quote +:+ "cancel" +:+ Py.quote +:+ " or most variants of "
                    +:+ Py.quote +:+ "no one" +:+ Py.quote +:+ ".") ;;;
          ret None).

(** [select_target]: every turn consumes an answer, so the answers left
    bound the number of turns. *)
Fixpoint select_target_loop (turns : nat) (question : string) (allow_none : bool)
    (condition : option Player → M bool) : M (option Player) :=
  match turns with
  | 0 => λ _, OutOfFuel
  | S turns' =>
      r <- select_target_turn question allow_none condition ;;
      match r with
      | Some target => ret target
      | None => select_target_loop turns' question allow_none condition
      end
  end.

Definition select_target (question : string) (allow_none : bool)
    (condition : option Player → M bool) : M (option Player) :=
  λ g, select_target_loop (S (length (inbox g))) question allow_none condition g.

(** [add_targeted_effect]; [character] is the acting character's player. *)
Definition add_targeted_effect (character : Player) (effect : EffectClass) (verb : string)
    (condition : option Player → M bool) (allow_none enabled : bool)
    (epithet_string : string) : M (list Player * list string) :=
  let condition := if allow_none then condition_wrapper condition else condition in
  target <- select_target
              ("Who did " +:+ formatted_epithet character epithet_string +:+ ", "
               +:+ verb +:+ "?") true condition ;;
  match target with
  | None => raise AttributeError
  | Some t =>
      effect_object <- add_effect t effect character ;;
      (if negb enabled then effect_disable effect_object else ret tt) ;;;
      if subclass_of_Dead effect then ret ([t], []) else ret ([], [])
  end.

End CharCreation.

(** ** The functioning gate *)

Section Gating.
Context `{Collaborators}.
Context {R : Type}.

(** A character method [func(character, ctx, *args, **kwargs)], with
    [character] given by its owning player [character.parent]. *)
Definition Ability : Type := Player → list Value → gmap string Value → M R.

(** [getattr(Character(None), name)(ctx, *args, **kwargs)]: the method of
    that name on a character without a parent. *)
Variable placeholder_method : string → list Value → gmap string Value → M R.

(** The status named in the diagnostic, lines 82-89. *)
Definition impairment (g : Game) (parent : Player) : string :=
  if ghost g parent None then "dead"
  else if is_status g parent "drunk" then "drunk"
  else if is_status g parent "poisoned" then "poisoned"
  else "not functioning".

(** The note of lines 95-103. *)
Definition skip_note (parent : Player) (status : string) : string :=
  "Skipping " +:+ epithet parent +:+ ", as " +:+ pronoun_subjective parent +:+ " "
  +:+ (if pronoun_plural parent then "are" else "is") +:+ " " +:+ status +:+ ".".

(** [if_functioning(run_if_drunkpoisoned)(func)], for [func] of name
    [func_name]. *)
Definition if_functioning (run_if_drunkpoisoned : bool) (func_name : string)
    (func : Ability) : Ability :=
  λ parent args kwargs,
    g <- get ;;
    if functioning g parent then func parent args kwargs
    else
      g <- get ;;
      if safe_bug_report g then
        g <- get ;;
        let status := impairment g parent in
        if run_if_drunkpoisoned
           && (bool_decide (status = "drunk") || bool_decide (status = "poisoned"))
        then
          let kwargs := <["enabled" := VBool false]> kwargs in
          let kwargs := <["epithet_string" := VStr ("(" +:+ status +:+ ")")]> kwargs in
          func parent args kwargs
        else
          send_ctx (skip_note parent status) ;;;
          placeholder_method func_name args kwargs
      else placeholder_method func_name args kwargs.

End Gating.

(** ** A table-driven implementation of the collaborators

    Statuses, ghosts and the other readings come from fixed tables; the
    hooks are no-ops that agree.  It serves to run the engine on concrete
    games. *)

Record Tables := mkTables {
  t_statuses : list (Player * string);
  t_ghosts : list Player;
  t_bug_report : bool;
  t_vetoes : list Player;
}.

Definition table_status (t : Tables) (p : Player) (name : string) : bool :=
  bool_decide ((p, name) ∈ t_statuses t).

Definition table_ghost (t : Tables) (p : Player) : bool :=
  bool_decide (p ∈ t_ghosts t).

Definition table_collaborators (t : Tables) : Collaborators := {|
  is_status := λ _ p name, table_status t p name;
  ghost := λ _ p _, table_ghost t p;
  functioning := λ _ p,
    negb (table_ghost t p || table_status t p "drunk" || table_status t p "poisoned");
  can_vote := λ g p is_traveler,
    is_traveler || negb (table_ghost t p) || (0 <? dead_votes (player_data g p))%Z;
  vote_value := λ _ _ _, 1%Z;
  can_nominate := λ g p, (nominations_today (player_data g p) <? 1)%Z;
  can_be_nominated := λ g p _, negb (has_been_nominated (player_data g p));
  add_nomination := λ p,
    modify (update_player p
              (λ d, mkPlayerData (nominations_today d + 1) (has_been_nominated d)
                      (dead_votes d) (effects d)));
  nick := λ p, "P" +:+ pretty p;
  mention := λ p, "@P" +:+ pretty p;
  epithet := λ p, "P" +:+ pretty p;
  formatted_epithet := λ p s, "P" +:+ pretty p +:+ " " +:+ s;
  pronoun_subjective := λ _, "they";
  pronoun_possessive := λ _, "their";
  pronoun_plural := λ _, true;
  player_role_mention := "@players";
  character_exile := λ p, emit (Exiled p);
  character_nomination := λ p _ _,
    emit (SentMember p "nomination hook") ;;; ret (negb (bool_decide (p ∈ t_vetoes t)));
  effect_nomination := λ _ _ _, ret true;
  effect_delete := λ e, modify (λ g, set_effect_objs (delete e (effect_objs g)) g);
  effect_disable := λ e,
    modify (λ g, set_effect_objs
                   (alter (λ d, mkEffectData (effect_class d) (instance_days d) true) e
                      (effect_objs g)) g);
  base_evening_cleanup := λ _, ret tt;
  base_morning_cleanup := λ _, ret tt;
  add_effect := λ target cls _ g,
    let e := fresh (dom (effect_objs g)) in
    Ok e (update_player target
            (λ d, mkPlayerData (nominations_today d) (has_been_nominated d)
                    (dead_votes d) (effects d ++ [e]))
            (set_effect_objs (<[e := mkEffectData cls None false]> (effect_objs g)) g));
  to_player := λ text _ condition g,
    match head (List.filter (λ p, bool_decide ("P" +:+ pretty p = text)) (seating_order g)) with
    | Some p =>
        match condition with
        | Some c => bind (c (Some p))
                      (λ ok, if ok then ret p else raise (BadArgument "not eligible")) g
        | None => Ok p g
        end
    | None => Raised (BadArgument "no such player") g
    end;
  subclass_of_BadArgument := λ _, false;
  exn_str := λ _, "error";
  safe_bug_report := λ _, t_bug_report t;
  answer_is_yes := λ a, bool_decide (a = "yes");
  message_tally := λ _ _, "tally";
  has_atheist := λ _, false;
  start_night := ret tt;
|}.

(** A day just begun, and a game of [n] seated players on such a day. *)
Definition new_day : Day := mkDay true false [] None None [].

Definition new_game (n : nat) : Game :=
  mkGame (seq 0 n) [100] 1 (Some new_day) [] ∅ ∅ ∅ ∅ 0 [] [].

(** ** Concrete games *)

(** Five seated players and nobody special (scenario A of the
    specification); the same with player 2 a traveler and player 1 voting
    twice (scenario C); three players of whom player 1 votes twice. *)
Definition scenario_A : Tables := mkTables [] [] true [].
Definition scenario_C : Tables := mkTables [(2, "traveler"); (1, "can_vote_twice")] [] true [].
Definition votes_twice_tables : Tables := mkTables [(1, "can_vote_twice")] [] true [].

(** The channel after the unpin loop over [ids]. *)
Definition unpinned (ids : list Z) (ch : gmap Z Message) : gmap Z Message :=
  foldl (λ ch idn, alter (λ m, mkMessage (content m) false) idn ch) ch ids.

(** The refund of [Vote.cancel], lines 300-302, on the players' attributes. *)
Definition cancel_players (v : Vote) (g : Game) : Game :=
  let g1 :=
    if negb (traveler v) || storyteller v then
      update_player (nominator v)
        (λ p, mkPlayerData (nominations_today p - 1) (has_been_nominated p)
                (dead_votes p) (effects p)) g
    else g in
  update_player (nominee v)
    (λ p, mkPlayerData (nominations_today p) false (dead_votes p) (effects p)) g1.

(** A game of [n] seated players whose day has [v] as its live vote, vote
    object 0, with the given [about_to_die] entry and channel messages
    numbered from 0. *)
Definition game_with_vote (n : nat) (v : Vote) (atd : option (Player * Z * Z))
    (msgs : list Message) : Game :=
  mkGame (seq 0 n) [100] 1 (Some (mkDay false false [] (Some 0) atd [])) [] ∅
    {[0 := v]} ∅ (list_to_map (zip (Z.of_nat <$> seq 0 (length msgs)) msgs))
    (Z.of_nat (length msgs)) [] [].

Definition traveler_by_storyteller : Tables :=
  mkTables [(2, "traveler"); (100, "storyteller")] [] true [].

(** The day has no live vote. *)
Definition no_live_vote (g : Game) : Prop :=
  ∃ d, current_day g = Some d ∧ current_vote d = None.

(** [m] keeps [P] whenever it returns. *)
Definition keeps {A} (P : Game → Prop) (m : M A) : Prop :=
  ∀ g a g', P g → m g = Ok a g' → P g'.

(** Scenario B of the specification: player 1 is about to die on 3 votes,
    announced in message 0; the vote on player 2, nominated by player 0,
    has been cast through with [tally] yes votes against a majority of 4. *)
Definition scenario_B_vote (tally : Z) : Vote :=
  mkVote 2 0 false false [1%Z] ∅ 5 tally [] [3; 4; 0; 1; 2] 4%Q.

Definition scenario_B (tally : Z) : Game :=
  game_with_vote 5 (scenario_B_vote tally) (Some (1, 3%Z, 0%Z))
    [mkMessage "3 votes on P1 (nominated by P4). They are about to be executed." true;
     mkMessage "@players, @P2 has been nominated by @P0. 4 to execute. 3 to tie." true].

(** A game whose only effect object, number 0, is of class [cls]. *)
Definition game_with_effect (cls : EffectClass) : Game :=
  mkGame (seq 0 3) [100] 1 (Some new_day) [] ∅ ∅ {[0 := mkEffectData cls None false]}
    ∅ 0 [] [].

(** An effect class decorated with [@evening_delete(("days", n))], and one
    decorated with [@evening_delete()]. *)
Definition evening_class (n : Z) : EffectClass := mkEffectClass false true false (Some n).

(** A vote under way on five players: players 3 and 4 have voted and it is
    player 0's turn. *)
Definition vote_under_way : Game :=
  game_with_vote 5 (mkVote 2 0 false false [] ∅ 2 1 [3] [3; 4; 0; 1; 2] (5 # 2)) None [].

(** Player 1 is poisoned and player 2 is dead; [reports] is what
    [safe_bug_report] answers. *)
Definition impaired_tables (reports : bool) : Tables :=
  mkTables [(1, "poisoned")] [2] reports [].

(** An ability that leaves a trace and returns 1, and the placeholder
    method, which returns 0. *)
Definition marking_ability : @Ability nat :=
  λ parent _ kwargs,
    emit (SentMember parent
            (match kwargs !! "enabled" with
             | Some (VBool false) => "ability ran, not enabled"
             | _ => "ability ran"
             end)) ;;;
    ret 1.

Definition silent_placeholder : string → list Value → gmap string Value → M nat :=
  λ _ _ _, ret 0.

(** The class [Dead] and a class that does not derive from it. *)
Definition Dead_class : EffectClass := mkEffectClass true false false None.
Definition Poison_class : EffectClass := mkEffectClass false false false None.

(** A game of three in which the storyteller's next answers are [answers]. *)
Definition game_with_answers (answers : list string) : Game :=
  set_inbox answers (new_game 3).

(** The question [add_targeted_effect] asks. *)
Definition target_question `{Collaborators} (character : Player) (verb epithet_string : string)
  : string :=
  "Who did " +:+ formatted_epithet character epithet_string +:+ ", " +:+ verb +:+ "?".

(** Player 1 vetoes every nomination; nobody is special. *)
Definition veto_tables : Tables := mkTables [] [] true [1].

(** Scenario A played through: player 0 nominates player 2, and the five
    players vote in the order 3, 4, 0, 1, 2 with the values given. *)
Definition play_scenario_A (values : list bool) : M unit :=
  let H := table_collaborators scenario_A in
  Day_nominate 10 "P2" 0 ;;;
  for_each (zip [3; 4; 0; 1; 2] values) (λ pv, Vote_vote 10 0 pv.1 pv.2).

(** The day's [about_to_die] once [m] has returned. *)
Definition about_to_die_after (m : M unit) (g : Game) : option (option (Player * Z * Z)) :=
  match m g with
  | Ok _ g' => about_to_die <$> current_day g'
  | _ => None
  end.

(** What [nominee.has_been_nominated = True] does to the nominee's
    attributes. *)
Definition mark_nominated (p : PlayerData) : PlayerData :=
  mkPlayerData (nominations_today p) true (dead_votes p) (effects p).

(** The state a call leaves behind. *)
Definition state_after {A} (m : M A) (g : Game) : Game :=
  match m g with
  | Ok _ g' | Raised _ g' | Awaiting g' => g'
  | OutOfFuel => g
  end.

(** The content of channel message [idn] once [m] has returned. *)
Definition content_after (m : M unit) (g : Game) (idn : Z) : option string :=
  match m g with
  | Ok _ g' => content <$> (channel g' !! idn)
  | _ => None
  end.

(** The vote that put player 1 about to die in scenario B: nominated by
    player 4, with three yes votes, from players 2, 3 and 4. *)
Definition scenario_B_leading_vote : Vote :=
  mkVote 1 4 false false [] ∅ 5 3 [2; 3; 4] [2; 3; 4; 0; 1] (5 # 2).

(** Scenario B with message 0 as [Vote.end] sent it for that vote, the
    yes-voters listed. *)
Definition scenario_B_listed (tally : Z) : Game :=
  let H := table_collaborators scenario_A in
  game_with_vote 5 (scenario_B_vote tally) (Some (1, 3%Z, 0%Z))
    [mkMessage (Vote_generate_vote_end_message scenario_B_leading_vote).1 true;
     mkMessage "@players, @P2 has been nominated by @P0. 4 to execute. 3 to tie." true].

(** Scenario A played through with three yes votes, after which player 3
    nominates player 1 and the players vote in the order 2, 3, 4, 0, 1 with
    the values given; the second vote is vote object 1. *)
Definition play_second_nomination (values : list bool) : M unit :=
  let H := table_collaborators scenario_A in
  play_scenario_A [true; true; true; false; false] ;;;
  Day_nominate 10 "P1" 3 ;;;
  for_each (zip [2; 3; 4; 0; 1] values) (λ pv, Vote_vote 10 1 pv.1 pv.2).

(** Five seated players of whom player 2 is dead, with no dead vote left. *)
Definition dead_nominee_tables : Tables := mkTables [] [2] true [].

(** The vote on player 2 has come to its last voter, player 2. *)
Definition last_voter_dead : Game :=
  game_with_vote 5 (mkVote 2 0 false false [] ∅ 4 1 [3] [3; 4; 0; 1; 2] 2) None [].

(** [to_player], called with [condition], returns or raises without adding
    to the answers still to be read. *)
Definition reads_no_answer `{Collaborators} (condition : option Player → M bool) : Prop :=
  ∀ answer g,
    match to_player answer [] (Some condition) g with
    | Ok _ g' | Raised _ g' => length (inbox g') ≤ length (inbox g)
    | Awaiting _ => True
    | OutOfFuel => False
    end.

(** The nick "Zoë": three code points, the last one encoded in two bytes. *)
Definition nick_Zoe : string :=
  "Zo" +:+ String (Ascii.ascii_of_nat 195) (String (Ascii.ascii_of_nat 171) EmptyString).

(** * Properties *)

(** ** Python list facts *)

Section PyFacts.
Context {A : Type} `{EqDecision A}.
Implicit Types (x : A) (l : list A).

Lemma index_Some x l j :
  Py.index x l = Some j → l !! j = Some x ∧ ∀ k, k < j → l !! k ≠ Some x.
Proof.
  revert j. induction l as [|y l IH]; intros j; simpl; [done|].
  case_decide as Hxy.
  - intros [= <-]. subst y. split; [done|]. intros k Hk. lia.
  - destruct (Py.index x l) as [j'|] eqn:E; simpl; [|done].
    intros [= <-]. destruct (IH j' eq_refl) as [Hj Hlt]. split; [done|].
    intros [|k] Hk; simpl.
    + congruence.
    + apply Hlt. lia.
Qed.

Lemma index_None x l : Py.index x l = None ↔ x ∉ l.
Proof.
  induction l as [|y l IH]; simpl.
  - split; [intros _; apply not_elem_of_nil | done].
  - case_decide as Hxy.
    + subst. split; [done|]. intros Hn. exfalso. apply Hn. left.
    + destruct (Py.index x l) as [j'|] eqn:E; simpl.
      * split; [done|]. intros Hn. exfalso.
        assert (x ∉ l) as Hl by (intros Hin; apply Hn; by right).
        apply IH in Hl. done.
      * split; [|done]. intros _. rewrite not_elem_of_cons. split; [done|].
        by apply IH.
Qed.

Lemma index_le x l i :
  l !! i = Some x → ∃ j, Py.index x l = Some j ∧ j ≤ i.
Proof.
  intros Hi. destruct (Py.index x l) as [j|] eqn:E.
  - exists j. split; [done|]. destruct (index_Some _ _ _ E) as [_ Hlt].
    destruct (decide (j ≤ i)); [done|]. exfalso. apply (Hlt i); [lia | done].
  - apply index_None in E. exfalso. apply E. by eapply list_elem_of_lookup_2.
Qed.

Lemma insert_length j x l : length (Py.insert j x l) = S (length l).
Proof.
  unfold Py.insert. rewrite length_app. simpl. rewrite length_take, length_drop. lia.
Qed.

Lemma insert_lookup_shift j x l i :
  j ≤ i → j ≤ length l → Py.insert j x l !! S i = l !! i.
Proof.
  intros Hji Hj. unfold Py.insert.
  rewrite lookup_app_r; rewrite length_take; [|lia].
  replace (S i - j `min` length l) with (S (i - j)) by lia. simpl.
  rewrite lookup_drop. f_equal. lia.
Qed.

End PyFacts.

(** ** Vote construction *)

Lemma set_seating_order_twice l l' g :
  set_seating_order l (set_seating_order l' g) = set_seating_order l g.
Proof. reflexivity. Qed.

Section ConstructionFacts.
Context `{Collaborators}.

Lemma Vote_twice_loop_diverges fuel aliased :
  ∀ g i ord k p,
    (aliased = true → ∀ q l, is_status (set_seating_order l g) q "can_vote_twice"
                             = is_status g q "can_vote_twice") →
    i ≤ k → ord !! k = Some p → is_status g p "can_vote_twice" = true →
    Vote_twice_loop fuel aliased i ord g = OutOfFuel.
Proof.
  induction fuel as [|fuel IH]; intros g i ord k p Hstable Hik Hk Hp.
  - simpl. destruct (ord !! i) eqn:Hi; [done|].
    apply lookup_ge_None in Hi. apply lookup_lt_Some in Hk. lia.
  - simpl. destruct (ord !! i) as [q|] eqn:Hi.
    2:{ apply lookup_ge_None in Hi. apply lookup_lt_Some in Hk. lia. }
    unfold bind at 1. simpl.
    destruct (is_status g q "can_vote_twice") eqn:Hq.
    + destruct (index_le _ _ _ Hi) as (j & Hj & Hji). rewrite Hj.
      assert (Py.insert j q ord !! S i = Some q) as Hnext.
      { rewrite insert_lookup_shift; [done|done|].
        apply lookup_lt_Some in Hi. lia. }
      destruct aliased; unfold bind, modify, ret.
      * apply (IH _ _ _ (S i) q); [|lia|done|].
        -- intros _ q' l. rewrite set_seating_order_twice.
           by rewrite !Hstable.
        -- by rewrite Hstable.
      * by apply (IH _ _ _ (S i) q).
    + assert (i ≠ k) by (intros ->; congruence).
      apply (IH _ _ _ k p); [done|lia|done|done].
Qed.

Lemma Vote_twice_loop_returns fuel aliased :
  ∀ g i ord,
    (∀ p, p ∈ ord → is_status g p "can_vote_twice" = false) →
    length ord - i ≤ fuel →
    Vote_twice_loop fuel aliased i ord g = Ok ord g.
Proof.
  induction fuel as [|fuel IH]; intros g i ord Hno Hfuel.
  - simpl. destruct (ord !! i) eqn:Hi; [|done].
    apply lookup_lt_Some in Hi. lia.
  - simpl. destruct (ord !! i) as [q|] eqn:Hi; [|done].
    unfold bind at 1. simpl.
    rewrite Hno by (by eapply list_elem_of_lookup_2).
    apply IH; [done|lia].
Qed.

Lemma initial_order_length g nominee on_st ord :
  Vote_initial_order g nominee on_st = Some ord →
  length ord = length (seating_order g).
Proof.
  unfold Vote_initial_order. destruct on_st.
  - by intros [= <-].
  - destruct (Py.index nominee (seating_order g)) as [i|]; simpl; [|done].
    intros [= <-]. rewrite length_app, length_take, length_drop. lia.
Qed.

Lemma Vote_begin_Ok g nominee nominator d ord :
  current_day g = Some d →
  Vote_initial_order g nominee (is_status g nominee "storyteller") = Some ord →
  Vote_begin nominee nominator g
  = Ok (mkVote nominee nominator (is_status g nominee "traveler")
          (is_status g nominee "storyteller") [] ∅ 0 0%Z [] ord
          (Vote_initial_majority g d (is_status g nominee "traveler") ord)) g.
Proof.
  intros Hd Hord. unfold Vote_begin, bind, get. simpl. by rewrite Hd, Hord.
Qed.

Lemma Vote_init_inv fuel nominee nominator g v g' :
  Vote_init fuel nominee nominator g = Ok v g' →
  ∃ v0 ord, Vote_begin nominee nominator g = Ok v0 g
            ∧ Vote_twice_loop fuel (storyteller v0) 0 (order v0) g = Ok ord g'
            ∧ v = set_order ord v0.
Proof.
  unfold Vote_init. unfold bind at 1.
  destruct (Vote_begin nominee nominator g) as [v0 g0| | |] eqn:Hb; try done.
  assert (g0 = g) as ->.
  { revert Hb. unfold Vote_begin, bind, get, ret, raise. simpl.
    destruct (current_day g); [|done].
    destruct (Vote_initial_order _ _ _); [|done]. by intros [= _ <-]. }
  unfold bind.
  destruct (Vote_twice_loop _ _ _ _ _) as [ord g1| | |] eqn:Hl; try done.
  unfold ret. intros [= <- <-]. by exists v0, ord.
Qed.

Lemma Py_max_Qmax a b : (Py.max a b == Qmax a b)%Q.
Proof.
  unfold Py.max. destruct (a ?= b)%Q eqn:E.
  - apply Qeq_alt in E. rewrite Q.max_l; [reflexivity|]. rewrite E. apply Qle_refl.
  - apply Qlt_alt in E. rewrite Q.max_r; [reflexivity|]. by apply Qlt_le_weak.
  - apply Qgt_alt in E. rewrite Q.max_l; [reflexivity|]. by apply Qlt_le_weak.
Qed.

Lemma half_eq n : (inject_Z n / 2 == n # 2)%Q.
Proof. unfold Qdiv, Qmult, Qinv, Qeq, inject_Z. simpl. lia. Qed.

Lemma initial_order_elem g nominee ord p :
  Vote_initial_order g nominee false = Some ord →
  p ∈ ord ↔ p ∈ seating_order g.
Proof.
  unfold Vote_initial_order.
  destruct (Py.index nominee (seating_order g)) as [i|]; simpl; [|done].
  intros [= <-]. rewrite elem_of_app.
  rewrite <- (take_drop (i + 1) (seating_order g)) at 3.
  rewrite elem_of_app. tauto.
Qed.

Lemma Vote_init_diverges g nominee nominator d p :
  current_day g = Some d →
  is_status g nominee "storyteller" = false →
  nominee ∈ seating_order g →
  p ∈ seating_order g →
  is_status g p "can_vote_twice" = true →
  ∀ fuel, Vote_init fuel nominee nominator g = OutOfFuel.
Proof.
  intros Hd Hst Hnominee Hp Htwice fuel.
  destruct (Vote_initial_order g nominee false) as [ord|] eqn:Hord.
  2:{ unfold Vote_initial_order in Hord.
      destruct (Py.index nominee (seating_order g)) eqn:E; [done|].
      by apply index_None in E. }
  unfold Vote_init. unfold bind at 1.
  rewrite (Vote_begin_Ok g nominee nominator d ord) by (by rewrite ?Hst).
  unfold bind. simpl. rewrite Hst.
  apply (initial_order_elem _ _ _ p) in Hord as Hin. apply Hin in Hp.
  apply list_elem_of_lookup_1 in Hp as [k Hk].
  rewrite (Vote_twice_loop_diverges fuel false g 0 ord k p); [done|done|lia|done|done].
Qed.

End ConstructionFacts.

(** C3 (the code departs from the claim).  Three players are seated, player 1
    holds "can_vote_twice", player 2 is nominated by player 0.  The loop of
    lines 100-103 inserts player 1 in front of the position its iterator
    stands on, so the iterator meets player 1 again on every turn: whatever
    the number of turns allowed, the constructor has not returned and no
    order with player 1 appearing exactly twice is ever produced. *)
Theorem C3_votes_twice_construction_never_returns :
  ∀ fuel, @Vote_init (table_collaborators votes_twice_tables) fuel 2 0 (new_game 3)
          = OutOfFuel.
Proof.
  apply (@Vote_init_diverges (table_collaborators votes_twice_tables)
           (new_game 3) 2 0 new_day 1); try reflexivity.
  all: simpl; set_solver.
Qed.

(** C1 (as amended).  On a day [d], with the nominee seated (or a vote on
    the storytellers), the fields of the new vote are set, and the majority
    is computed from the order [ord0] as it stands before any votes-twice
    duplicate is inserted, an order as long as the seating order: for a
    traveler, [len(ord0) / 2] with no ghost excluded; otherwise the number
    of entries of [ord0] that are not ghosts (effect-based status counted)
    over 2, raised to [about_to_die.votes + 1] when the day has such an
    entry and that is larger.  A constructor call that returns keeps this
    majority. *)
Theorem C1_majority_fixed_before_duplicates `{Collaborators}
    (g : Game) (nominee nominator : Player) (d : Day) (ord0 : list Player) :
  current_day g = Some d →
  Vote_initial_order g nominee (is_status g nominee "storyteller") = Some ord0 →
  ∃ v,
    Vote_begin nominee nominator g = Ok v g
    ∧ order v = ord0
    ∧ length ord0 = length (seating_order g)
    ∧ traveler v = is_status g nominee "traveler"
    ∧ (if traveler v
       then (majority v == Z.of_nat (length ord0) # 2)%Q
       else match about_to_die d with
            | None => (majority v == Z.of_nat (length (non_ghosts g ord0)) # 2)%Q
            | Some (_, tally, _) =>
                (majority v == Qmax (Z.of_nat (length (non_ghosts g ord0)) # 2)
                                 (inject_Z (tally + 1)))%Q
            end)
    ∧ ∀ fuel v' g',
        Vote_init fuel nominee nominator g = Ok v' g' → majority v' = majority v.
Proof.
  intros Hd Hord. eexists. split; [by apply Vote_begin_Ok|].
  simpl. split; [done|]. split; [by eapply initial_order_length|]. split; [done|].
  split.
  - unfold Vote_initial_majority.
    destruct (is_status g nominee "traveler"); [apply half_eq|].
    destruct (about_to_die d) as [[[? tally] ?]|]; [|apply half_eq].
    rewrite Py_max_Qmax. by rewrite half_eq.
  - intros fuel v' g' Hinit.
    apply Vote_init_inv in Hinit as (v0 & ord & Hb & _ & ->).
    rewrite (Vote_begin_Ok g nominee nominator d ord0) in Hb by done.
    by injection Hb as <-.
Qed.

(** The amended C1 on scenario A: nominee at seat 2 of 5, majority 5/2. *)
Lemma C1_majority_witness :
  ∃ v,
    @Vote_begin (table_collaborators scenario_A) 2 0 (new_game 5) = Ok v (new_game 5)
    ∧ order v = [3; 4; 0; 1; 2]
    ∧ length [3; 4; 0; 1; 2] = length (seating_order (new_game 5))
    ∧ traveler v = false
    ∧ (if traveler v
       then Qeq (majority v) (Qmake (Z.of_nat (length [3; 4; 0; 1; 2])) 2)
       else Qeq (majority v)
              (Qmake (Z.of_nat (length (@non_ghosts (table_collaborators scenario_A)
                                          (new_game 5) [3; 4; 0; 1; 2]))) 2))
    ∧ ∀ fuel v' g',
        @Vote_init (table_collaborators scenario_A) fuel 2 0 (new_game 5) = Ok v' g' →
        majority v' = majority v.
Proof.
  exact (@C1_majority_fixed_before_duplicates (table_collaborators scenario_A)
           (new_game 5) 2 0 new_day [3; 4; 0; 1; 2] eq_refl eq_refl).
Defined.

(** C1 as stated fails on scenario C: five seated players, player 1 votes
    twice, traveler nominee at seat 2.  The majority the constructor stores
    is 5/2, not 3, and no order of length 6 comes out of the constructor. *)
Lemma C1_counterexample :
  ∃ v,
    @Vote_begin (table_collaborators scenario_C) 2 0 (new_game 5) = Ok v (new_game 5)
    ∧ traveler v = true
    ∧ (majority v == 5 # 2)%Q
    ∧ ¬ (majority v == 3)%Q
    ∧ ∀ fuel, @Vote_init (table_collaborators scenario_C) fuel 2 0 (new_game 5)
              = OutOfFuel.
Proof.
  eexists. split; [reflexivity|]. split; [reflexivity|]. split; [reflexivity|].
  split; [by intros Heq|].
  apply (@Vote_init_diverges (table_collaborators scenario_C)
           (new_game 5) 2 0 new_day 1); try reflexivity.
  all: simpl; set_solver.
Qed.

(** ** Messaging and the monad *)

Lemma set_channel_same g : set_channel (channel g) (next_message g) g = g.
Proof. by destruct g. Qed.

Lemma set_outbox_same g : set_outbox (outbox g) g = g.
Proof. by destruct g. Qed.

Lemma for_each_send_member (l : list Player) text g :
  for_each l (λ st, send_member st text) g
  = Ok tt (set_outbox (outbox g ++ map (λ st, SentMember st text) l) g).
Proof.
  revert g. induction l as [|st l IH]; intros g; simpl.
  - unfold ret. by rewrite app_nil_r, set_outbox_same.
  - unfold bind, send_member, emit, modify. rewrite IH. simpl.
    by rewrite <- app_assoc.
Qed.

Section ResolutionFacts.
Context `{Collaborators}.

Lemma notify_storytellers_Ok text g :
  notify_storytellers text g
  = Ok tt (set_outbox (outbox g ++ map (λ st, SentMember st text) (storytellers g)
                       ++ [StatusUpdated]) g).
Proof.
  unfold notify_storytellers, bind, get. rewrite for_each_send_member.
  unfold emit, modify. simpl. by rewrite <- app_assoc.
Qed.

End ResolutionFacts.

Lemma unpinned_lookup ids (ch : gmap Z Message) a :
  content <$> (unpinned ids ch !! a) = content <$> (ch !! a).
Proof.
  revert ch. induction ids as [|idn ids IH]; intros ch; simpl; [done|].
  rewrite IH. rewrite lookup_alter. case_decide; [|done].
  subst. by destruct (ch !! a).
Qed.

Lemma unpin_all_Ok ids g :
  (∀ idn, idn ∈ ids → is_Some (channel g !! idn)) →
  unpin_all ids g = Ok tt (set_channel (unpinned ids (channel g)) (next_message g) g).
Proof.
  revert g. induction ids as [|idn ids IH]; intros g Hids; simpl.
  - unfold ret. by rewrite set_channel_same.
  - unfold unpin_all in *. simpl. unfold bind at 1. unfold bind at 1.
    unfold fetch_message.
    destruct (Hids idn) as [m Hm]; [by left|]. rewrite Hm.
    assert (∀ g', channel g' = alter (λ m, mkMessage (content m) false) idn (channel g) →
                  ∀ i, i ∈ ids → is_Some (channel g' !! i)) as Hnext.
    { intros g' -> i Hi. rewrite lookup_alter. case_decide.
      - subst. rewrite Hm. by eexists.
      - apply Hids. by right. }
    destruct (pinned m) eqn:Hp.
    + unfold unpin_message, modify. rewrite IH; [done|]. by apply Hnext.
    + unfold ret.
      assert (alter (λ m, mkMessage (content m) false) idn (channel g) = channel g) as Hid.
      { apply map_eq. intros i. rewrite lookup_alter. case_decide; [|done].
        subst. rewrite Hm. simpl. f_equal. destruct m. simpl in *. by subst. }
      rewrite IH; [|intros; apply Hids; by right]. by rewrite Hid.
Qed.

Lemma bind_Ok {A B} (m : M A) (k : A → M B) g a g' :
  m g = Ok a g' → bind m k g = k a g'.
Proof. unfold bind. by intros ->. Qed.

Lemma bind_Raised {A B} (m : M A) (k : A → M B) g e g' :
  m g = Raised e g' → bind m k g = Raised e g'.
Proof. unfold bind. by intros ->. Qed.

(** One statement of a method body, run by computation or by a lemma. *)
(** The setters and the attribute reads unfold under [simpl]. *)
Arguments set_seating_order _ _ /.
Arguments set_current_day _ _ /.
Arguments set_past_days _ _ /.
Arguments set_players _ _ /.
Arguments set_vote_objs _ _ /.
Arguments set_effect_objs _ _ /.
Arguments set_channel _ _ _ /.
Arguments set_outbox _ _ /.
Arguments set_inbox _ _ /.
Arguments set_is_pms _ _ /.
Arguments set_is_noms _ _ /.
Arguments set_past_votes _ _ /.
Arguments set_current_vote _ _ /.
Arguments set_about_to_die _ _ /.
Arguments set_vote_end_messages _ _ /.
Arguments vote_obj _ _ /.
Arguments player_data _ _ /.
Arguments update_player _ _ _ /.
Arguments effect_obj _ _ /.

Ltac mstep := erewrite bind_Ok by reflexivity; simpl.

Section ConstructionFacts.
Context `{Collaborators}.

(** When nobody in the order holds "can_vote_twice" the constructor
    returns, after one turn of the loop per entry, with the order
    unchanged. *)
Lemma Vote_init_returns g nominee_p nominator_p d ord fuel :
  current_day g = Some d →
  Vote_initial_order g nominee_p (is_status g nominee_p "storyteller") = Some ord →
  (∀ p, p ∈ ord → is_status g p "can_vote_twice" = false) →
  length ord ≤ fuel →
  ∃ v, Vote_init fuel nominee_p nominator_p g = Ok v g ∧ order v = ord.
Proof.
  intros Hd Hord Hnone Hfuel. unfold Vote_init.
  erewrite bind_Ok by (by apply Vote_begin_Ok). simpl.
  erewrite bind_Ok by (apply Vote_twice_loop_returns; [done | lia]).
  by eexists.
Qed.

End ConstructionFacts.

Section ResolutionFacts.
Context `{Collaborators}.

Lemma Day_open_pms_Ok g d :
  current_day g = Some d →
  Day_open_pms g
  = Ok tt (set_outbox (outbox g ++ map (λ st, SentMember st "PMs are now open.")
                         (storytellers g) ++ [StatusUpdated])
             (set_current_day (Some (set_is_pms true d)) g)).
Proof.
  intros Hd. unfold Day_open_pms.
  erewrite bind_Ok;
    [|unfold modify_day, the_day, bind, get, modify; simpl; by rewrite Hd].
  by rewrite notify_storytellers_Ok.
Qed.

Lemma Day_open_noms_Ok g d :
  current_day g = Some d →
  Day_open_noms g
  = Ok tt (set_outbox (outbox g ++ map (λ st, SentMember st "Nominations are now open.")
                         (storytellers g) ++ [StatusUpdated])
             (set_current_day (Some (set_is_noms true d)) g)).
Proof.
  intros Hd. unfold Day_open_noms.
  erewrite bind_Ok;
    [|unfold modify_day, the_day, bind, get, modify; simpl; by rewrite Hd].
  by rewrite notify_storytellers_Ok.
Qed.

Lemma Vote_end_not_live g d self :
  current_day g = Some d → current_vote d ≠ Some self → Vote_end self g = Ok tt g.
Proof.
  intros Hd Hv. unfold Vote_end.
  erewrite bind_Ok; [|unfold the_day, bind, get; simpl; by rewrite Hd].
  by rewrite bool_decide_eq_false_2.
Qed.

Lemma Vote_cancel_not_live g d self :
  current_day g = Some d → current_vote d ≠ Some self → Vote_cancel self g = Ok tt g.
Proof.
  intros Hd Hv. unfold Vote_cancel.
  erewrite bind_Ok; [|unfold the_day, bind, get; simpl; by rewrite Hd].
  by rewrite bool_decide_eq_false_2.
Qed.

Lemma Vote_end_no_day g self :
  current_day g = None → Vote_end self g = Raised AttributeError g.
Proof.
  intros Hd. unfold Vote_end. apply bind_Raised.
  unfold the_day, bind, get, raise. simpl. by rewrite Hd.
Qed.

Lemma Vote_cancel_no_day g self :
  current_day g = None → Vote_cancel self g = Raised AttributeError g.
Proof.
  intros Hd. unfold Vote_cancel. apply bind_Raised.
  unfold the_day, bind, get, raise. simpl. by rewrite Hd.
Qed.

Lemma Vote_cancel_live g d self :
  current_day g = Some d → current_vote d = Some self →
  (∀ idn, idn ∈ announcements (vote_obj g self) → is_Some (channel g !! idn)) →
  ∃ ch out,
    Vote_cancel self g
    = Ok tt (set_channel ch (next_message g + 1)%Z
               (set_outbox out
                  (cancel_players (vote_obj g self)
                     (set_current_day
                        (Some (set_is_noms true (set_is_pms true (set_current_vote None d))))
                        g)))).
Proof.
  intros Hd Hv Hids. destruct g as [so sts dn cd pd pl vo eo ch nm ob ib].
  simpl in *. subst cd.
  unfold Vote_cancel. mstep.
  rewrite bool_decide_eq_true_2 by done.
  mstep. mstep.
  erewrite bind_Ok by (by apply Day_open_pms_Ok). simpl.
  erewrite bind_Ok by (by apply Day_open_noms_Ok). simpl.
  mstep. unfold cancel_players, vote_obj in *. simpl in *.
  set (v := vo !!! self) in *.
  destruct (negb (traveler v) || storyteller v) eqn:Hrefund.
  all: mstep; mstep; mstep; mstep.
  all: rewrite unpin_all_Ok;
    [ simpl; eexists _, _; reflexivity
    | simpl; intros idn Hin; rewrite lookup_insert; case_decide; [done|]; by apply Hids ].
Qed.

End ResolutionFacts.

Section ResolutionFacts.
Context `{Collaborators}.

Lemma fetch_message_Ok g idn m :
  channel g !! idn = Some m → fetch_message idn g = Ok m g.
Proof. unfold fetch_message. by intros ->. Qed.

Lemma Vote_end_live_standard g d self x tally a old :
  current_day g = Some d → current_vote d = Some self →
  traveler (vote_obj g self) = false →
  about_to_die d = Some (x, tally, a) →
  channel g !! a = Some old →
  channel g !! next_message g = None →
  (∀ idn, idn ∈ announcements (vote_obj g self) → is_Some (channel g !! idn)) →
  let v := vote_obj g self in
  ∃ g' d',
    Vote_end self g = Ok tt g'
    ∧ current_day g' = Some d'
    ∧ vote_obj g' self = v
    ∧ past_votes d' = past_votes d ++ [self]
    ∧ current_vote d' = None
    ∧ content <$> (channel g' !! next_message g)
      = Some (fst (Vote_generate_vote_end_message v))
    ∧ about_to_die d'
      = (if vote_result v then Some (nominee v, votes v, next_message g)
         else if bool_decide (votes v = tally) then None
         else Some (x, tally, a))
    ∧ content <$> (channel g' !! a)
      = Some (if vote_result v || bool_decide (votes v = tally)
              then negate_announcement (content old) else content old).
Proof.
  intros Hd Hv Htrav Hatd Ha Hfresh Hids.
  assert (a ≠ next_message g) as Hne by (intros ->; congruence).
  destruct g as [so sts dn cd pd pl vo eo ch nm ob ib].
  destruct d as [pms noms pv cv atd vem].
  simpl in *. subst cd cv atd. set (v := vo !!! self) in *.
  unfold Vote_end. mstep.
  rewrite bool_decide_eq_true_2 by done.
  mstep. mstep. mstep. mstep. fold v. rewrite Htrav. simpl.
  mstep.
  erewrite bind_Ok by (by apply Day_open_pms_Ok). simpl.
  erewrite bind_Ok by (by apply Day_open_noms_Ok). simpl.
  mstep. fold v. rewrite Htrav. simpl.
  unfold Vote_update_old_vote_end_message.
  destruct (vote_result v) eqn:Hres; simpl.
  - erewrite bind_Ok.
    2:{ erewrite bind_Ok.
        2:{ mstep. mstep.
            erewrite bind_Ok
              by (apply fetch_message_Ok; simpl; rewrite lookup_insert_ne by done;
                  exact Ha).
            mstep. reflexivity. }
        simpl. mstep. reflexivity. }
    simpl. mstep. fold v.
    rewrite unpin_all_Ok.
    + simpl. eexists _, _. split; [reflexivity|]. simpl.
      split; [reflexivity|]. split; [done|]. split; [done|]. split; [done|].
      split.
      * rewrite unpinned_lookup, lookup_alter_ne by done.
        by rewrite lookup_insert_eq.
      * split; [done|]. rewrite unpinned_lookup, lookup_alter_eq.
        rewrite lookup_insert_ne by done. by rewrite Ha.
    + simpl. intros idn Hin. rewrite lookup_alter.
      destruct (decide (a = idn)) as [<-|Hai].
      * rewrite lookup_insert_ne by done. rewrite Ha. by eexists.
      * rewrite lookup_insert. destruct (decide (nm = idn)); [done|]. by apply Hids.
  - destruct (bool_decide (votes v = tally)) eqn:Htie.
    + erewrite bind_Ok.
      2:{ erewrite bind_Ok.
          2:{ mstep. mstep. fold v. rewrite Htie.
              erewrite bind_Ok
                by (apply fetch_message_Ok; simpl; rewrite lookup_insert_ne by done;
                    exact Ha).
              mstep. reflexivity. }
          simpl. mstep. reflexivity. }
      simpl. mstep. fold v.
      rewrite unpin_all_Ok.
      * simpl. eexists _, _. split; [reflexivity|]. simpl.
        split; [reflexivity|]. split; [done|]. split; [done|]. split; [done|].
        split.
        -- rewrite unpinned_lookup, lookup_alter_ne by done.
           by rewrite lookup_insert_eq.
        -- split; [done|]. rewrite unpinned_lookup, lookup_alter_eq.
           rewrite lookup_insert_ne by done. by rewrite Ha.
      * simpl. intros idn Hin. rewrite lookup_alter.
        destruct (decide (a = idn)) as [<-|Hai].
        -- rewrite lookup_insert_ne by done. rewrite Ha. by eexists.
        -- rewrite lookup_insert. destruct (decide (nm = idn)); [done|]. by apply Hids.
    + erewrite bind_Ok.
      2:{ erewrite bind_Ok.
          2:{ mstep. mstep. fold v. rewrite Htie. reflexivity. }
          simpl. mstep. reflexivity. }
      simpl. mstep. fold v.
      rewrite unpin_all_Ok.
      * simpl. eexists _, _. split; [reflexivity|]. simpl.
        split; [reflexivity|]. split; [done|]. split; [done|]. split; [done|].
        split.
        -- rewrite unpinned_lookup. by rewrite lookup_insert_eq.
        -- split; [done|]. rewrite unpinned_lookup.
           rewrite lookup_insert_ne by done. by rewrite Ha.
      * simpl. intros idn Hin.
        rewrite lookup_insert. destruct (decide (nm = idn)); [done|]. by apply Hids.
Qed.

End ResolutionFacts.

Section ResolutionFacts.
Context `{Collaborators}.

Lemma unpin_all_day ids : ∀ g g',
  unpin_all ids g = Ok tt g' → current_day g' = current_day g.
Proof.
  unfold unpin_all.
  induction ids as [|idn ids IH]; intros g g'; simpl.
  - by intros [= <-].
  - unfold bind at 1. unfold bind at 1. unfold fetch_message.
    destruct (channel g !! idn) as [m|]; [|done].
    destruct (pinned m).
    + unfold unpin_message, modify. intros Hr. by apply IH in Hr.
    + unfold ret. apply IH.
Qed.

Lemma cancel_players_nominator v g :
  nominations_today (player_data (cancel_players v g) (nominator v))
  = (if traveler v && negb (storyteller v)
     then nominations_today (player_data g (nominator v))
     else nominations_today (player_data g (nominator v)) - 1)%Z.
Proof.
  unfold cancel_players.
  destruct (traveler v), (storyteller v); simpl.
  all: destruct (decide (nominee v = nominator v)) as [->|Hne].
  all: rewrite ?lookup_total_insert_eq; simpl; try done.
  all: rewrite ?lookup_total_insert_ne by done.
  all: by rewrite ?lookup_total_insert_eq.
Qed.

Lemma cancel_players_nominee v g :
  has_been_nominated (player_data (cancel_players v g) (nominee v)) = false.
Proof.
  unfold cancel_players. simpl. by rewrite lookup_total_insert_eq.
Qed.

End ResolutionFacts.

(** ** Steps that leave the day without a live vote *)

Lemma keeps_ret {A} P (a : A) : keeps P (ret a).
Proof. intros g a' g' HP [= _ <-]. done. Qed.

Lemma keeps_bind {A B} P (m : M A) (k : A → M B) :
  keeps P m → (∀ a, keeps P (k a)) → keeps P (bind m k).
Proof.
  intros Hm Hk g b g' HP. unfold bind.
  destruct (m g) as [a g1| | |] eqn:E; try done.
  intros Hr. eapply Hk; [|exact Hr]. by eapply Hm.
Qed.

Lemma keeps_modify P (f : Game → Game) :
  (∀ g, P g → P (f g)) → keeps P (modify f).
Proof. intros Hf g a g' HP [= <- <-]. by apply Hf. Qed.

Lemma keeps_get P : keeps P get.
Proof. intros g a g' HP [= _ <-]. done. Qed.

Lemma keeps_if {A} P (b : bool) (m1 m2 : M A) :
  keeps P m1 → keeps P m2 → keeps P (if b then m1 else m2).
Proof. by destruct b. Qed.

Lemma keeps_for_each {A} P (l : list A) (body : A → M unit) :
  (∀ x, keeps P (body x)) → keeps P (for_each l body).
Proof.
  intros Hb. induction l as [|x l IH]; simpl.
  - apply keeps_ret.
  - apply keeps_bind; [apply Hb | intros _; apply IH].
Qed.

Lemma keeps_emit e : keeps no_live_vote (emit e).
Proof. apply keeps_modify. intros g (d & Hd & Hv). by exists d. Qed.

Lemma keeps_send_channel text pin : keeps no_live_vote (send_channel text pin).
Proof. intros g a g' (d & Hd & Hv) [= _ <-]. by exists d. Qed.

Lemma keeps_fetch_message idn : keeps no_live_vote (fetch_message idn).
Proof.
  intros g a g' HP. unfold fetch_message.
  destruct (channel g !! idn); [|done]. by intros [= _ <-].
Qed.

Lemma keeps_edit_message idn text : keeps no_live_vote (edit_message idn text).
Proof. apply keeps_modify. intros g (d & Hd & Hv). by exists d. Qed.

Lemma keeps_unpin_message idn : keeps no_live_vote (unpin_message idn).
Proof. apply keeps_modify. intros g (d & Hd & Hv). by exists d. Qed.

Lemma keeps_get_vote self : keeps no_live_vote (get_vote self).
Proof. intros g a g' HP [= _ <-]. done. Qed.

Lemma keeps_update_player p f : keeps no_live_vote (modify (update_player p f)).
Proof. apply keeps_modify. intros g (d & Hd & Hv). by exists d. Qed.

Lemma keeps_the_day : keeps no_live_vote the_day.
Proof.
  intros g a g' HP. unfold the_day, bind, get.
  destruct (current_day g); [|done]. by intros [= _ <-].
Qed.

Lemma keeps_modify_day f :
  (∀ d, current_vote (f d) = current_vote d) → keeps no_live_vote (modify_day f).
Proof.
  intros Hf g a g' (d & Hd & Hv). unfold modify_day, the_day, bind, get, modify.
  rewrite Hd. simpl. intros [= <- <-]. exists (f d). simpl. split; [done|].
  by rewrite Hf.
Qed.

Lemma keeps_unpin_all ids : keeps no_live_vote (unpin_all ids).
Proof.
  apply keeps_for_each. intros idn.
  apply keeps_bind; [apply keeps_fetch_message|]. intros m.
  apply keeps_if; [apply keeps_unpin_message | apply keeps_ret].
Qed.

Section ClearsFacts.
Context `{Collaborators}.

Lemma keeps_notify_storytellers text : keeps no_live_vote (notify_storytellers text).
Proof.
  apply keeps_bind; [apply keeps_get|]. intros g.
  apply keeps_bind; [|intros _; apply keeps_emit].
  apply keeps_for_each. intros st. apply keeps_emit.
Qed.

Lemma keeps_open_pms : keeps no_live_vote Day_open_pms.
Proof.
  apply keeps_bind; [by apply keeps_modify_day|]. intros _.
  apply keeps_notify_storytellers.
Qed.

Lemma keeps_open_noms : keeps no_live_vote Day_open_noms.
Proof.
  apply keeps_bind; [by apply keeps_modify_day|]. intros _.
  apply keeps_notify_storytellers.
Qed.

Lemma no_live_vote_not_live g self :
  no_live_vote g → Vote_end self g = Ok tt g ∧ Vote_cancel self g = Ok tt g.
Proof.
  intros (d & Hd & Hv). split.
  - apply (Vote_end_not_live g d); [done|]. by rewrite Hv.
  - apply (Vote_cancel_not_live g d); [done|]. by rewrite Hv.
Qed.

Lemma Vote_cancel_clears g self g' :
  Vote_cancel self g = Ok tt g' →
  ∃ d', current_day g' = Some d' ∧ current_vote d' ≠ Some self.
Proof.
  unfold Vote_cancel. unfold bind at 1.
  destruct (the_day g) as [d g0| | |] eqn:Hday; try done.
  assert (g0 = g ∧ current_day g = Some d) as [-> Hd].
  { revert Hday. unfold the_day, bind, get, ret, raise.
    destruct (current_day g); [|done]. by intros [= -> ->]. }
  case_bool_decide as Hlive.
  - unfold bind at 1.
    destruct (modify_day (set_current_vote None) g) as [[] g1| | |] eqn:Hm; try done.
    assert (no_live_vote g1) as Hg1.
    { revert Hm. unfold modify_day, the_day, bind, get, modify. rewrite Hd. simpl.
      intros [= <-]. by eexists. }
    intros Hrest.
    assert (no_live_vote g') as (d' & Hd' & Hv').
    { cbv beta in Hrest.
      match type of Hrest with
      | ?m g1 = _ => assert (keeps no_live_vote m) as Hk
      end.
      { repeat first
          [ apply keeps_send_channel | apply keeps_open_pms | apply keeps_open_noms
          | apply keeps_get_vote | apply keeps_update_player | apply keeps_ret
          | apply keeps_unpin_all
          | apply keeps_if
          | apply keeps_bind; [|intros ?] ]. }
      exact (Hk _ _ _ Hg1 Hrest). }
    exists d'. split; [done|]. by rewrite Hv'.
  - intros [= <-]. by exists d.
Qed.

Ltac keeps_step :=
  first
    [ apply keeps_send_channel | apply keeps_open_pms | apply keeps_open_noms
    | apply keeps_get_vote | apply keeps_update_player | apply keeps_ret
    | apply keeps_unpin_all | apply keeps_fetch_message | apply keeps_edit_message
    | apply keeps_the_day | (apply keeps_modify_day; done)
    | apply keeps_if
    | apply keeps_bind; [|intros ?] ].

Lemma keeps_send_vote_end_message self :
  keeps no_live_vote (Vote_send_vote_end_message self).
Proof.
  unfold Vote_send_vote_end_message.
  apply keeps_bind; [apply keeps_get_vote|]. intros v.
  destruct (Vote_generate_vote_end_message v) as [text result].
  repeat keeps_step.
Qed.

Lemma keeps_update_old_vote_end_message self result :
  keeps no_live_vote (Vote_update_old_vote_end_message self result).
Proof.
  unfold Vote_update_old_vote_end_message.
  apply keeps_bind; [apply keeps_the_day|]. intros d.
  destruct (about_to_die d) as [[[x tally] a]|]; repeat keeps_step.
Qed.

Lemma Vote_end_clears g self g' :
  (∀ p, keeps no_live_vote (character_exile p)) →
  Vote_end self g = Ok tt g' →
  ∃ d', current_day g' = Some d' ∧ current_vote d' ≠ Some self.
Proof.
  intros Hexile. unfold Vote_end. unfold bind at 1.
  destruct (the_day g) as [d g0| | |] eqn:Hday; try done.
  assert (g0 = g ∧ current_day g = Some d) as [-> Hd].
  { revert Hday. unfold the_day, bind, get, ret, raise.
    destruct (current_day g); [|done]. by intros [= -> ->]. }
  case_bool_decide as Hlive.
  - unfold bind at 1.
    destruct (modify_day _ g) as [[] g1| | |] eqn:Hm1; try done.
    unfold bind at 1.
    destruct (modify_day _ g1) as [[] g2| | |] eqn:Hm2; try done.
    assert (no_live_vote g2) as Hg2.
    { revert Hm1 Hm2. unfold modify_day, the_day, bind, get, modify. rewrite Hd. simpl.
      intros [= <-]. simpl. intros [= <-]. by eexists. }
    intros Hrest.
    assert (no_live_vote g') as (d' & Hd' & Hv').
    { cbv beta in Hrest.
      match type of Hrest with
      | ?m g2 = _ => assert (keeps no_live_vote m) as Hk
      end.
      { apply keeps_bind; [apply keeps_send_vote_end_message|].
        intros [end_msg result].
        repeat first
          [ apply Hexile | apply keeps_update_old_vote_end_message | keeps_step ]. }
      exact (Hk _ _ _ Hg2 Hrest). }
    exists d'. split; [done|]. by rewrite Hv'.
  - intros [= <-]. by exists d.
Qed.

End ClearsFacts.

(** ** The outcome of a vote *)

Lemma string_cons_app c (s t : string) : String c s +:+ t = String c (s +:+ t).
Proof. reflexivity. Qed.

Lemma string_app_assoc (s t u : string) : (s +:+ t) +:+ u = s +:+ t +:+ u.
Proof. induction s as [|c s IH]; [done|]. rewrite !string_cons_app. by rewrite IH. Qed.

Lemma string_app_nil_r (s : string) : s +:+ "" = s.
Proof. induction s as [|c s IH]; [done|]. rewrite string_cons_app. by rewrite IH. Qed.

(** The first code point of a text starts with the first byte of the text. *)
Lemma code_points_cons c s :
  ∃ cp rest, Py.code_points (String c s) = String c cp :: rest.
Proof.
  revert c. induction s as [|c' s IH]; intros c; [by eexists _, _|].
  destruct (IH c') as (cp & rest & E).
  change (Py.code_points (String c (String c' s)))
    with (match Py.code_points (String c' s) with
          | cp :: rest => if Py.continues cp then String c cp :: rest
                          else String c EmptyString :: cp :: rest
          | [] => [String c EmptyString]
          end).
  rewrite E. destruct (Py.continues _); by eexists _, _.
Qed.

Lemma join_code_points s : Py.join (Py.code_points s) = s.
Proof.
  induction s as [|c s IH]; [done|]. simpl.
  destruct (Py.code_points s) as [|cp rest]; [by destruct s|].
  destruct (Py.continues cp); simpl in *; rewrite ?string_cons_app; by rewrite IH.
Qed.

Lemma continues_code_points c s cp rest :
  Py.code_points (String c s) = cp :: rest → Py.continues cp = Py.continues (String c s).
Proof.
  destruct (code_points_cons c s) as (cp' & rest' & ->). by intros [= <- _].
Qed.

(** The code points of [s + t], when [t] does not start inside one. *)
Lemma code_points_app s t :
  Py.continues t = false →
  Py.code_points (s +:+ t) = Py.code_points s ++ Py.code_points t.
Proof.
  intros Ht. induction s as [|c s IH]; [done|].
  change (String c s +:+ t) with (String c (s +:+ t)).
  simpl. rewrite IH.
  destruct (Py.code_points s) as [|cp rest] eqn:E; simpl.
  - destruct t as [|c' t]; [done|].
    destruct (Py.code_points (String c' t)) as [|cp' rest'] eqn:E'; [done|].
    apply continues_code_points in E'. by rewrite E', Ht.
  - by destruct (Py.continues cp).
Qed.

Lemma join_app l k : Py.join (l ++ k) = Py.join l +:+ Py.join k.
Proof.
  induction l as [|s l IH]; [done|]. simpl. rewrite IH. by rewrite string_app_assoc.
Qed.

(** [(s + t)[:-n]] and [(s + t)[-n:]] where [t] has [n] code points. *)
Lemma str_but_last_app n s t :
  Py.continues t = false → Py.len t = n → Py.str_but_last n (s +:+ t) = s.
Proof.
  intros Ht Hn. unfold Py.str_but_last, Py.len in *. rewrite code_points_app by done.
  rewrite length_app, Hn.
  replace (length (Py.code_points s) + n - n) with (length (Py.code_points s)) by lia.
  rewrite take_app_length. apply join_code_points.
Qed.

Lemma str_last_app n s t :
  Py.continues t = false → Py.len t = n → Py.str_last n (s +:+ t) = t.
Proof.
  intros Ht Hn. unfold Py.str_last, Py.len in *. rewrite code_points_app by done.
  rewrite length_app, Hn.
  replace (length (Py.code_points s) + n - n) with (length (Py.code_points s)) by lia.
  rewrite drop_app_length. apply join_code_points.
Qed.

(** Slices count code points, not bytes: the last 22 of a text that ends
    with the nick "Zoë" start at the same place as for a nick of three
    ASCII letters. *)
Example slices_count_code_points :
  Py.len nick_Zoe = 3 ∧ String.length nick_Zoe = 4
  ∧ Py.str_last 22 ("They are about to be executed." +:+ Py.nl +:+ "- " +:+ nick_Zoe)
    = " to be executed." +:+ Py.nl +:+ "- " +:+ nick_Zoe
  ∧ Py.str_last 22 ("They are about to be executed." +:+ Py.nl +:+ "- Zoe")
    = " to be executed." +:+ Py.nl +:+ "- Zoe".
Proof. repeat split; reflexivity. Qed.

Lemma initial_majority_beats_about_to_die `{Collaborators} g d ord x tally a :
  about_to_die d = Some (x, tally, a) →
  (inject_Z (tally + 1) <= Vote_initial_majority g d false ord)%Q.
Proof.
  intros Hatd. unfold Vote_initial_majority. rewrite Hatd.
  rewrite Py_max_Qmax. apply Q.le_max_r.
Qed.

Section TextFacts.
Context `{Collaborators}.

Lemma Vote_generate_vote_end_message_text v :
  Vote_generate_vote_end_message v = (vote_end_text v (vote_result v), vote_result v).
Proof. reflexivity. Qed.

Lemma fold_left_voter_lines l : ∀ text,
  fold_left (λ text voter, text +:+ Py.nl +:+ "- " +:+ nick voter) l text
  = text +:+ voter_lines l.
Proof.
  induction l as [|p l IH]; intros text; simpl.
  - by rewrite string_app_nil_r.
  - rewrite IH. by rewrite !string_app_assoc.
Qed.

Lemma vote_end_text_shape v result :
  traveler v = false →
  vote_end_text v result
  = vote_end_head v +:+ (if result then "" else " not")
    +:+ " about to be executed." +:+ voter_lines (voted v).
Proof.
  intros Htrav. unfold vote_end_text, vote_end_head. rewrite Htrav.
  rewrite fold_left_voter_lines. rewrite !string_app_assoc. reflexivity.
Qed.

Lemma voter_lines_continues l : Py.continues (voter_lines l) = false.
Proof. by destruct l. Qed.

Lemma voter_lines_nil l : voter_lines l = "" → l = [].
Proof. by destruct l. Qed.

(** With nothing after the sentence the edit negates it. *)
Lemma negate_announcement_plain (s : string) :
  negate_announcement (s +:+ " about to be executed.")
  = s +:+ " not" +:+ " about to be executed.".
Proof.
  unfold negate_announcement.
  by rewrite str_but_last_app, str_last_app.
Qed.

(** With more text after the sentence, the 22 code points counted from the
    end start inside or after the sentence, and [" not"] does not land in
    front of it. *)
Lemma negate_announcement_listed (s lines : string) :
  lines ≠ "" → Py.continues lines = false →
  negate_announcement (s +:+ " about to be executed." +:+ lines)
  ≠ s +:+ " not" +:+ " about to be executed." +:+ lines.
Proof.
  intros HL Hc. unfold negate_announcement, Py.str_but_last, Py.str_last, Py.len.
  rewrite (code_points_app s) by (by destruct lines).
  rewrite (code_points_app " about to be executed.") by done.
  destruct (Py.code_points lines) as [|cp rest] eqn:EL.
  { exfalso. apply HL. rewrite <- (join_code_points lines). by rewrite EL. }
  rewrite !length_app. simpl length.
  replace (length (Py.code_points s) + (22 + S (length rest)) - 22)
    with (length (Py.code_points s) + S (length rest)) by lia.
  rewrite take_app_add, drop_app_add, join_app, join_code_points.
  rewrite string_app_assoc. intros Heq. apply (inj (String.append s)) in Heq.
  revert Heq. generalize (cp :: rest). intros l.
  destruct (length rest) as [|m]; [by vm_compute|].
  change (Py.code_points " about to be executed.") with
    (" " :: "a" :: Py.code_points "bout to be executed.").
  simpl take. simpl Py.join. rewrite !string_cons_app. simpl.
  intros Heq. discriminate Heq.
Qed.

Lemma negate_vote_end_text w :
  traveler w = false →
  (voted w = [] → negate_announcement (vote_end_text w true) = vote_end_text w false)
  ∧ (voted w ≠ [] → negate_announcement (vote_end_text w true) ≠ vote_end_text w false).
Proof.
  intros Htrav. rewrite !vote_end_text_shape by done. split.
  - intros ->. simpl voter_lines. rewrite !string_app_nil_r.
    change ("" +:+ " about to be executed.") with " about to be executed.".
    apply negate_announcement_plain.
  - intros Hvoted.
    change ("" +:+ " about to be executed." +:+ voter_lines (voted w))
      with (" about to be executed." +:+ voter_lines (voted w)).
    apply negate_announcement_listed; [|apply voter_lines_continues].
    intros Hnil. by apply voter_lines_nil in Hnil.
Qed.

End TextFacts.

(** C2 (the code departs from the claim).  A vote that is not on a traveler
    is the day's live vote; the day has an [about_to_die] entry
    [(x, tally, a)], and message [a] holds the announcement [Vote.end] sent
    for the vote [w] that put [x] there.  [Vote.end] returns, and
    [about_to_die] moves as the claim has it: a true result
    ([votes >= majority]) installs (nominee, votes, id of this vote's end
    message); a false result on an exact tie clears it; any other false
    result leaves the entry and the old announcement as they were.  The
    edit that goes with the first two cases puts [" not"] 22 code points
    before the end of the old announcement.  That is in front of
    [" about to be executed."] only when no yes-voter is listed after the
    sentence: then the text becomes the announcement of a failed vote.
    When [w] had a yes-voter, the edited text is not that announcement: the
    word lands further on, and the old sentence is not negated.  A true
    result is a strict improvement once the majority is at least
    [tally + 1], as the constructor makes it. *)
Theorem C2_end_misplaces_the_negation `{Collaborators}
    (g : Game) (d : Day) (self : VoteRef) (x : Player) (tally a : Z)
    (old : Message) (w : Vote) :
  current_day g = Some d →
  current_vote d = Some self →
  traveler (vote_obj g self) = false →
  about_to_die d = Some (x, tally, a) →
  channel g !! a = Some old →
  traveler w = false →
  content old = vote_end_text w true →
  channel g !! next_message g = None →
  (∀ idn, idn ∈ announcements (vote_obj g self) → is_Some (channel g !! idn)) →
  let v := vote_obj g self in
  ∃ g' d' new,
    Vote_end self g = Ok tt g'
    ∧ current_day g' = Some d'
    ∧ content <$> (channel g' !! a) = Some new
    ∧ ((majority v <= inject_Z (votes v))%Q →
       about_to_die d' = Some (nominee v, votes v, next_message g)
       ∧ content <$> (channel g' !! next_message g) = Some (vote_end_text v true))
    ∧ (¬ (majority v <= inject_Z (votes v))%Q → votes v = tally →
       about_to_die d' = None)
    ∧ (¬ (majority v <= inject_Z (votes v))%Q → votes v ≠ tally →
       about_to_die d' = Some (x, tally, a) ∧ new = content old)
    ∧ ((majority v <= inject_Z (votes v))%Q ∨ votes v = tally →
       (voted w = [] → new = vote_end_text w false)
       ∧ (voted w ≠ [] → new ≠ vote_end_text w false))
    ∧ ((inject_Z (tally + 1) <= majority v)%Q →
       (majority v <= inject_Z (votes v))%Q → (tally < votes v)%Z).
Proof.
  intros Hd Hv Htrav Hatd Ha Hw Hold Hfresh Hids v.
  destruct (Vote_end_live_standard g d self x tally a old)
    as (g' & d' & Hend & Hd' & _ & _ & _ & Hmsg & Hatd' & Hnew); try done.
  fold v in Hmsg, Hatd', Hnew.
  assert (vote_result v = true ↔ (majority v <= inject_Z (votes v))%Q) as Hres
    by apply Qle_bool_iff.
  eexists g', d', _. split; [done|]. split; [done|]. split; [exact Hnew|].
  split; [|split; [|split; [|split]]].
  - intros Hle. apply Hres in Hle. rewrite Hatd', Hmsg, Hle. split; [done|].
    by rewrite Vote_generate_vote_end_message_text, Hle.
  - intros Hlt Htie. rewrite Hatd'.
    destruct (vote_result v); [exfalso; by apply Hlt, Hres|].
    by rewrite bool_decide_eq_true_2.
  - intros Hlt Hne. rewrite Hatd'.
    destruct (vote_result v); [exfalso; by apply Hlt, Hres|].
    by rewrite bool_decide_eq_false_2.
  - intros Hedit.
    assert (vote_result v || bool_decide (votes v = tally) = true) as ->.
    { destruct Hedit as [Hle|Htie].
      - apply Hres in Hle. by rewrite Hle.
      - rewrite (bool_decide_eq_true_2 _ Htie). apply orb_true_r. }
    rewrite Hold. by apply negate_vote_end_text.
  - intros Hmaj Hle.
    assert (inject_Z (tally + 1) <= inject_Z (votes v))%Q as Hle'
      by (by eapply Qle_trans).
    rewrite <- Zle_Qle in Hle'. lia.
Qed.

(** C2 on scenario B, the old announcement listing its three yes-voters: on
    a tie at 3 nobody is about to die any more, with 4 votes player 2 is,
    and either way message 0 reads "about to be ex notecuted." *)
Lemma C2_end_witness :
  (∃ g' d',
     @Vote_end (table_collaborators scenario_A) 0 (scenario_B_listed 3) = Ok tt g'
     ∧ current_day g' = Some d'
     ∧ about_to_die d' = None
     ∧ content <$> (channel g' !! 0%Z)
       = Some ("3 votes on P1 (nominated by P4). They are about to be ex notecuted."
               +:+ Py.nl +:+ "- P2" +:+ Py.nl +:+ "- P3" +:+ Py.nl +:+ "- P4"))
  ∧ ∃ g' d',
      @Vote_end (table_collaborators scenario_A) 0 (scenario_B_listed 4) = Ok tt g'
      ∧ current_day g' = Some d'
      ∧ about_to_die d' = Some (2, 4%Z, 2%Z)
      ∧ content <$> (channel g' !! 0%Z)
        = Some ("3 votes on P1 (nominated by P4). They are about to be ex notecuted."
                +:+ Py.nl +:+ "- P2" +:+ Py.nl +:+ "- P3" +:+ Py.nl +:+ "- P4").
Proof.
  split.
  - destruct (@C2_end_misplaces_the_negation (table_collaborators scenario_A)
                (scenario_B_listed 3)
                (mkDay false false [] (Some 0) (Some (1, 3%Z, 0%Z)) [])
                0 1 3%Z 0%Z
                (mkMessage
                   (@vote_end_text (table_collaborators scenario_A)
                      scenario_B_leading_vote true) true)
                scenario_B_leading_vote)
      as (g' & d' & new & Hend & Hd' & Hnew & _ & Htie & _); try reflexivity.
    + intros idn Hin. apply list_elem_of_singleton in Hin as ->. by eexists.
    + exists g', d'. split; [exact Hend|]. split; [exact Hd'|].
      split; [apply Htie; [by vm_compute | reflexivity]|].
      vm_compute in Hend. injection Hend as <-. reflexivity.
  - destruct (@C2_end_misplaces_the_negation (table_collaborators scenario_A)
                (scenario_B_listed 4)
                (mkDay false false [] (Some 0) (Some (1, 3%Z, 0%Z)) [])
                0 1 3%Z 0%Z
                (mkMessage
                   (@vote_end_text (table_collaborators scenario_A)
                      scenario_B_leading_vote true) true)
                scenario_B_leading_vote)
      as (g' & d' & new & Hend & Hd' & Hnew & Hwin & _); try reflexivity.
    + intros idn Hin. apply list_elem_of_singleton in Hin as ->. by eexists.
    + exists g', d'. split; [exact Hend|]. split; [exact Hd'|].
      split; [apply Hwin; by vm_compute|].
      vm_compute in Hend. injection Hend as <-. reflexivity.
Defined.

(** C4 (as amended).  Cancelling the live vote returns; the nominator's
    [nominations_today] goes down by one unless the vote is on a traveler
    and not on a storyteller, and the nominee's [has_been_nominated] is
    cleared.  Both flags are statuses of the nominee, fixed by the
    constructor: [storyteller] is not a status of the nominator. *)
Theorem C4_cancel_refund_follows_nominee_flags `{Collaborators}
    (g : Game) (d : Day) (self : VoteRef) :
  current_day g = Some d →
  current_vote d = Some self →
  (∀ idn, idn ∈ announcements (vote_obj g self) → is_Some (channel g !! idn)) →
  let v := vote_obj g self in
  (∃ g',
     Vote_cancel self g = Ok tt g'
     ∧ nominations_today (player_data g' (nominator v))
       = (if traveler v && negb (storyteller v)
          then nominations_today (player_data g (nominator v))
          else nominations_today (player_data g (nominator v)) - 1)%Z
     ∧ has_been_nominated (player_data g' (nominee v)) = false)
  ∧ ∀ g0 nominee nominator v0 g1,
      Vote_begin nominee nominator g0 = Ok v0 g1 →
      traveler v0 = is_status g0 nominee "traveler"
      ∧ storyteller v0 = is_status g0 nominee "storyteller".
Proof.
  intros Hd Hv Hids v. split.
  - destruct (Vote_cancel_live g d self Hd Hv Hids) as (ch & out & Hcancel).
    eexists. split; [exact Hcancel|]. fold v. split.
    + rewrite <- (cancel_players_nominator v
                   (set_current_day
                      (Some (set_is_noms true (set_is_pms true (set_current_vote None d))))
                      g)) at 1.
      reflexivity.
    + change (has_been_nominated
                (player_data
                   (cancel_players v
                      (set_current_day
                         (Some (set_is_noms true (set_is_pms true
                                                   (set_current_vote None d)))) g))
                   (nominee v)) = false).
      apply cancel_players_nominee.
  - intros g0 nominee nominator v0 g1. unfold Vote_begin, bind, get, ret, raise. simpl.
    destruct (current_day g0); [|done].
    destruct (Vote_initial_order _ _ _); [|done]. by intros [= <- _].
Qed.

(** The amended C4 on scenario B: a standard vote, so player 0 is refunded. *)
Lemma C4_cancel_refund_witness :
  ∃ g',
    Vote_cancel 0 (scenario_B 3) = Ok tt g'
    ∧ nominations_today (player_data g' 0) = (-1)%Z
    ∧ has_been_nominated (player_data g' 2) = false.
Proof.
  destruct (@C4_cancel_refund_follows_nominee_flags (table_collaborators scenario_A)
              (scenario_B 3) (mkDay false false [] (Some 0) (Some (1, 3%Z, 0%Z)) [])
              0 eq_refl eq_refl) as [(g' & Hcancel & Hrefund & Hflag) _].
  - intros idn Hin. apply list_elem_of_singleton in Hin as ->. by eexists.
  - exists g'. split; [exact Hcancel|]. split; [exact Hrefund | exact Hflag].
Defined.

(** C4 as stated fails: storyteller 100 nominates traveler 2 and the vote is
    cancelled.  The nominator is a storyteller, so the claim has the refund
    made; the code keeps the nominator's count as it was. *)
Lemma C4_counterexample :
  ∃ g1 g2,
    @Day_nominate_begin_vote (table_collaborators traveler_by_storyteller) 10 2 100
      (new_game 5) = Ok 0 g1
    ∧ current_vote <$> current_day g1 = Some (Some 0)
    ∧ @is_status (table_collaborators traveler_by_storyteller) g1 2 "traveler" = true
    ∧ @is_status (table_collaborators traveler_by_storyteller) g1 100 "storyteller" = true
    ∧ Vote_cancel 0 g1 = Ok tt g2
    ∧ nominations_today (player_data g2 100) = nominations_today (player_data g1 100).
Proof.
  eexists _, _. split; [vm_compute; reflexivity|].
  split; [reflexivity|]. split; [reflexivity|]. split; [reflexivity|].
  split; [vm_compute; reflexivity|]. reflexivity.
Qed.

(** C6.  When the vote [self] is not the day's current vote, [Vote.end] and
    [Vote.cancel] return the game state exactly as it was: the day's
    [past_votes], [current_vote] and [about_to_die], every player's
    attributes and every vote object.  So a second resolution does nothing:
    after a [cancel] that returned, and after an [end] that returned
    (the exile hook not starting a vote), both calls are no-ops. *)
Theorem C6_resolving_a_vote_that_is_not_live_changes_nothing `{Collaborators}
    (g : Game) (d : Day) (self : VoteRef) :
  current_day g = Some d →
  current_vote d ≠ Some self →
  (Vote_end self g = Ok tt g ∧ Vote_cancel self g = Ok tt g)
  ∧ (∀ g0 g1, Vote_cancel self g0 = Ok tt g1 →
              Vote_end self g1 = Ok tt g1 ∧ Vote_cancel self g1 = Ok tt g1)
  ∧ ((∀ p, keeps no_live_vote (character_exile p)) →
     ∀ g0 g1, Vote_end self g0 = Ok tt g1 →
              Vote_end self g1 = Ok tt g1 ∧ Vote_cancel self g1 = Ok tt g1).
Proof.
  intros Hd Hv. split; [|split].
  - split; [by eapply Vote_end_not_live | by eapply Vote_cancel_not_live].
  - intros g0 g1 Hcancel. apply Vote_cancel_clears in Hcancel as (d1 & Hd1 & Hv1).
    split; [by eapply Vote_end_not_live | by eapply Vote_cancel_not_live].
  - intros Hexile g0 g1 Hend. apply Vote_end_clears in Hend as (d1 & Hd1 & Hv1); [|done].
    split; [by eapply Vote_end_not_live | by eapply Vote_cancel_not_live].
Qed.

(** C6 on scenario B, for vote object 1 while vote 0 is live. *)
Lemma C6_not_live_witness :
  @Vote_end (table_collaborators scenario_A) 1 (scenario_B 3) = Ok tt (scenario_B 3)
  ∧ Vote_cancel 1 (scenario_B 3) = Ok tt (scenario_B 3).
Proof.
  refine (proj1 (@C6_resolving_a_vote_that_is_not_live_changes_nothing
                   (table_collaborators scenario_A) (scenario_B 3)
                   (mkDay false false [] (Some 0) (Some (1, 3%Z, 0%Z)) []) 1 eq_refl _)).
  by intros [= ?].
Defined.

(** ** Scheduled deletion *)

Lemma effect_days_with_days e n g : effect_days (with_days e n g) e = Some n.
Proof. unfold effect_days, with_days. simpl. by rewrite lookup_total_insert_eq. Qed.

Lemma with_days_twice e a b g : with_days e a (with_days e b g) = with_days e a g.
Proof.
  unfold with_days. simpl. rewrite lookup_total_insert_eq. simpl.
  by rewrite insert_insert_eq.
Qed.

Section DeletionFacts.
Context `{Collaborators}.

Lemma read_days_eq e g :
  read_days e g
  = match effect_days g e with Some n => Ok n g | None => Raised AttributeError g end.
Proof. unfold read_days, bind, get. by destruct (effect_days g e). Qed.

Lemma morning_delete_evening_delete : morning_delete = evening_delete.
Proof. reflexivity. Qed.


Lemma evening_delete_decrement g e n :
  effect_days g e = Some n → n ≠ 1%Z →
  evening_delete e g = Ok tt (with_days e (n - 1) g).
Proof.
  intros Hdays Hn. unfold evening_delete, try_except, bind.
  rewrite read_days_eq, Hdays. by rewrite bool_decide_eq_false_2.
Qed.



End DeletionFacts.



Section DeletionFacts.
Context `{Collaborators}.

Lemma Effect_evening_cleanup_decorated g e :
  has_evening_delete (effect_class (effect_obj g e)) = true →
  base_evening_cleanup e g = Ok tt g →
  Effect_evening_cleanup e g = evening_delete e g.
Proof.
  intros Hcls Hbase. unfold Effect_evening_cleanup, bind, get. cbv beta.
  rewrite Hcls. unfold class_decorator, bind. by rewrite Hbase.
Qed.

End DeletionFacts.

(** ** Prevotes *)

Section PrevoteFacts.
Context `{Collaborators}.

Lemma Vote_to_vote_Ok g self p :
  order (vote_obj g self) !! position (vote_obj g self) = Some p →
  Vote_to_vote self g = Ok p g.
Proof. intros Hp. unfold Vote_to_vote, bind, get_vote. cbv beta. by rewrite Hp. Qed.

End PrevoteFacts.

(** C10.  While some voter is being called: a voter who occurs nowhere in
    [order] makes [Vote.prevote] end in [ValueError], the state untouched;
    for a voter in [order] who is not the one called, the index compared
    with [position] is the earliest one at which the voter occurs: below
    [position] the prevote is refused with "You have already voted." and no
    vote object changes, otherwise it is stored. *)
Theorem C10_prevote_looks_up_earliest_index `{Collaborators}
    (fuel : nat) (g : Game) (self : VoteRef) (voter to_vote : Player) (vt : bool) :
  let v := vote_obj g self in
  order v !! position v = Some to_vote →
  (voter ∉ order v → Vote_prevote fuel self voter vt g = Raised ValueError g)
  ∧ (voter ≠ to_vote → ∀ i,
       Py.index voter (order v) = Some i →
       (order v !! i = Some voter ∧ ∀ k, k < i → order v !! k ≠ Some voter)
       ∧ ∃ g',
           Vote_prevote fuel self voter vt g = Ok tt g'
           ∧ (i < position v →
              vote_objs g' = vote_objs g
              ∧ outbox g' = outbox g ++ [SentCtx "You have already voted."])
           ∧ (position v ≤ i →
              prevotes (vote_obj g' self) = <[voter := vt]> (prevotes v)
              ∧ outbox g' = outbox g ++ [SentCtx "Successfully prevoted."])).
Proof.
  intros v Hto. split.
  - intros Hnot. unfold Vote_prevote.
    erewrite bind_Ok by (by apply Vote_to_vote_Ok).
    rewrite bool_decide_eq_false_2.
    2:{ intros ->. apply Hnot. by eapply list_elem_of_lookup_2. }
    erewrite bind_Ok by reflexivity. fold v.
    apply index_None in Hnot. by rewrite Hnot.
  - intros Hne i Hi. split; [by apply index_Some|].
    unfold Vote_prevote.
    erewrite bind_Ok by (by apply Vote_to_vote_Ok).
    rewrite bool_decide_eq_false_2 by done.
    erewrite bind_Ok by reflexivity. fold v. rewrite Hi.
    destruct (i <? position v) eqn:Hlt.
    + apply Nat.ltb_lt in Hlt. eexists. split; [reflexivity|]. split; [done|]. lia.
    + apply Nat.ltb_ge in Hlt. eexists. split; [reflexivity|]. split; [lia|].
      intros _. simpl. by rewrite lookup_total_insert_eq.
Qed.

(** C10 on a vote under way: unseated player 7 gets [ValueError]; player 3,
    who voted first, is refused. *)
Lemma C10_prevote_witness :
  @Vote_prevote (table_collaborators scenario_A) 5 0 7 true vote_under_way
  = Raised ValueError vote_under_way
  ∧ ∃ g', @Vote_prevote (table_collaborators scenario_A) 5 0 3 true vote_under_way
          = Ok tt g'
          ∧ vote_objs g' = vote_objs vote_under_way.
Proof.
  destruct (@C10_prevote_looks_up_earliest_index (table_collaborators scenario_A)
              5 vote_under_way 0 7 0 true eq_refl) as [Habsent _].
  destruct (@C10_prevote_looks_up_earliest_index (table_collaborators scenario_A)
              5 vote_under_way 0 3 0 true eq_refl) as [_ Hseated].
  split.
  - apply Habsent. simpl. intros Hin.
    repeat (apply elem_of_cons in Hin as [Hin|Hin]; [discriminate|]).
    by apply elem_of_nil in Hin.
  - destruct (Hseated ltac:(discriminate) 0 eq_refl) as (_ & g' & Hg' & Hvoted & _).
    exists g'. split; [exact Hg'|]. apply Hvoted. vm_compute. lia.
Defined.

(** ** The functioning gate *)

(** C5 (as amended).  When the owning player is functioning the ability runs
    as called.  When the player is not functioning and
    [safe_bug_report(ctx)] holds: if the player is dead or
    [run_if_drunkpoisoned] is false the note is sent and the result is the
    placeholder's, whatever the ability is; if [run_if_drunkpoisoned] is
    true and the player is drunk or poisoned and not dead, the ability runs
    with [enabled=False] and the epithet ["(drunk)"] or ["(poisoned)"].
    When the player is not functioning and [safe_bug_report(ctx)] does not
    hold, nothing is sent and the result is the placeholder's, whatever the
    ability is. *)
Theorem C5_functioning_gate `{Collaborators} {R : Type}
    (placeholder : string → list Value → gmap string Value → M R)
    (run_if_impaired : bool) (name : string) (func : Ability) (parent : Player)
    (args : list Value) (kwargs : gmap string Value) (g : Game) :
  (functioning g parent = true →
   if_functioning placeholder run_if_impaired name func parent args kwargs g
   = func parent args kwargs g)
  ∧ (functioning g parent = false → safe_bug_report g = true →
     ghost g parent None = true ∨ run_if_impaired = false →
     ∀ func',
       if_functioning placeholder run_if_impaired name func' parent args kwargs g
       = (send_ctx (skip_note parent (impairment g parent)) ;;;
          placeholder name args kwargs) g)
  ∧ (functioning g parent = false → safe_bug_report g = true →
     run_if_impaired = true → ghost g parent None = false →
     is_status g parent "drunk" = true ∨ is_status g parent "poisoned" = true →
     (impairment g parent = "drunk" ∨ impairment g parent = "poisoned")
     ∧ if_functioning placeholder run_if_impaired name func parent args kwargs g
       = func parent args
           (<["epithet_string" := VStr ("(" +:+ impairment g parent +:+ ")")]>
              (<["enabled" := VBool false]> kwargs)) g)
  ∧ (functioning g parent = false → safe_bug_report g = false →
     ∀ func',
       if_functioning placeholder run_if_impaired name func' parent args kwargs g
       = placeholder name args kwargs g).
Proof.
  unfold if_functioning, bind, get. cbv beta.
  split; [|split; [|split]].
  - by intros ->.
  - intros -> -> Hskip func'. unfold impairment.
    destruct Hskip as [-> | ->]; [|done].
    by rewrite andb_false_r.
  - intros -> -> -> Hghost Hstatus. unfold impairment. rewrite Hghost.
    destruct (is_status g parent "drunk") eqn:Hdrunk.
    + split; [by left | done].
    + destruct Hstatus as [? | ->]; [done|]. split; [by right | done].
  - by intros -> ->.
Qed.

(** The amended C5 on scenario E, with [safe_bug_report] answering true. *)
Lemma C5_functioning_gate_witness :
  (∃ g', @if_functioning (table_collaborators (impaired_tables true)) nat
           silent_placeholder false "morning" marking_ability 2 [] ∅ (new_game 3)
         = Ok 0 g'
         ∧ outbox g' = [SentCtx "Skipping P2, as they are dead."])
  ∧ ∃ g', @if_functioning (table_collaborators (impaired_tables true)) nat
            silent_placeholder true "morning" marking_ability 1 [] ∅ (new_game 3)
          = Ok 1 g'
          ∧ outbox g' = [SentMember 1 "ability ran, not enabled"].
Proof.
  destruct (@C5_functioning_gate (table_collaborators (impaired_tables true)) nat
              silent_placeholder false "morning" marking_ability 2 [] ∅ (new_game 3))
    as (_ & Hdead & _).
  destruct (@C5_functioning_gate (table_collaborators (impaired_tables true)) nat
              silent_placeholder true "morning" marking_ability 1 [] ∅ (new_game 3))
    as (_ & _ & Hpoisoned & _).
  split.
  - eexists. rewrite (Hdead eq_refl eq_refl (or_introl eq_refl)). split; reflexivity.
  - eexists. destruct (Hpoisoned eq_refl eq_refl eq_refl eq_refl (or_intror eq_refl))
      as [_ ->]. split; reflexivity.
Defined.

(** C5 as stated fails when [safe_bug_report] answers false: for poisoned
    player 1 and [run_if_drunkpoisoned=True] the ability does not run, and
    for dead player 2 no note is sent. *)
Lemma C5_counterexample :
  @if_functioning (table_collaborators (impaired_tables false)) nat
    silent_placeholder true "morning" marking_ability 1 [] ∅ (new_game 3)
  = Ok 0 (new_game 3)
  ∧ @if_functioning (table_collaborators (impaired_tables false)) nat
      silent_placeholder false "morning" marking_ability 2 [] ∅ (new_game 3)
    = Ok 0 (new_game 3).
Proof. split; reflexivity. Qed.

(** ** Targeting *)

(** C8 (as amended).  The wrapped condition raises
    [InvalidMorningTargetError] on a null player and is the original
    condition on any other.  When [select_target], run with the wrapped
    condition if [allow_none] is set and with the original otherwise, gives
    a player, and the effect is attached (and disabled when [enabled] is
    false), the affected-player list returned holds that player exactly
    when the effect class is a subclass of [Dead], and is empty otherwise;
    the list of messages is empty. *)
Theorem C8_targeted_effect `{Collaborators}
    (character : Player) (effect : EffectClass) (verb : string)
    (condition : option Player → M bool) (allow_none enabled : bool)
    (epithet_string : string) (g : Game) :
  (condition_wrapper condition None g = Raised InvalidMorningTargetError g
   ∧ ∀ p, condition_wrapper condition (Some p) g = condition (Some p) g)
  ∧ ∀ t g1 e g2 g3,
      select_target (target_question character verb epithet_string) true
        (if allow_none then condition_wrapper condition else condition) g
      = Ok (Some t) g1 →
      add_effect t effect character g1 = Ok e g2 →
      (if enabled then ret tt else effect_disable e) g2 = Ok tt g3 →
      add_targeted_effect character effect verb condition allow_none enabled
        epithet_string g
      = Ok (if subclass_of_Dead effect then [t] else [], []) g3.
Proof.
  split; [by split|].
  intros t g1 e g2 g3 Hselect Hadd Hdisable. unfold add_targeted_effect.
  cbv zeta. erewrite bind_Ok by exact Hselect. cbv beta iota.
  erewrite bind_Ok by exact Hadd.
  erewrite bind_Ok.
  2:{ destruct enabled; exact Hdisable. }
  by destruct (subclass_of_Dead effect).
Qed.

(** The amended C8 with the answer "P1": a [Dead] effect returns player 1,
    another effect returns nobody. *)
Lemma C8_targeted_effect_witness :
  (∃ g', @add_targeted_effect (table_collaborators scenario_A) 0 Dead_class "kill"
           (λ _, ret true) true true "" (game_with_answers ["P1"])
         = Ok ([1], []) g')
  ∧ ∃ g', @add_targeted_effect (table_collaborators scenario_A) 0 Poison_class "poison"
            (λ _, ret true) true false "" (game_with_answers ["P1"])
          = Ok ([], []) g'.
Proof.
  split.
  - eexists.
    refine (proj2 (@C8_targeted_effect (table_collaborators scenario_A) 0 Dead_class "kill"
                     (λ _, ret true) true true "" (game_with_answers ["P1"]))
              1 _ _ _ _ _ _ _); vm_compute; reflexivity.
  - eexists.
    refine (proj2 (@C8_targeted_effect (table_collaborators scenario_A) 0 Poison_class
                     "poison" (λ _, ret true) true false "" (game_with_answers ["P1"]))
              1 _ _ _ _ _ _ _); vm_compute; reflexivity.
Defined.

(** C8 as stated fails: the wrapped condition rejects the null target, and
    hands a player the original condition refuses back with that
    condition's verdict, raising nothing; with [allow_none] set the answer
    "no one" ends [add_targeted_effect] in [AttributeError] with no effect
    attached. *)
Lemma C8_counterexample :
  condition_wrapper (λ _, ret true) None (new_game 3)
  = Raised InvalidMorningTargetError (new_game 3)
  ∧ condition_wrapper (λ _, ret false) (Some 1) (new_game 3) = Ok false (new_game 3)
  ∧ ∃ g', @add_targeted_effect (table_collaborators scenario_A) 0 Dead_class "kill"
            (λ _, ret true) true true "" (game_with_answers ["no one"])
          = Raised AttributeError g'
          ∧ effect_objs g' = ∅.
Proof.
  split; [reflexivity|]. split; [reflexivity|].
  eexists. split; [vm_compute; reflexivity | reflexivity].
Qed.

(** ** Nomination hooks *)

Lemma bind_inv {A B} (m : M A) (k : A → M B) g b g' :
  bind m k g = Ok b g' → ∃ a g1, m g = Ok a g1 ∧ k a g1 = Ok b g'.
Proof.
  unfold bind. destruct (m g) as [a g1| | |]; try done. intros Hk. by exists a, g1.
Qed.

Lemma bind_ext {A B} (m : M A) (k k' : A → M B) g :
  (∀ a g1, k a g1 = k' a g1) → bind m k g = bind m k' g.
Proof. intros Hk. unfold bind. by destruct (m g). Qed.

Lemma bind_assoc {A B C} (m : M A) (k : A → M B) (k' : B → M C) g :
  bind (bind m k) k' g = bind m (λ a, bind (k a) k') g.
Proof. unfold bind. by destruct (m g). Qed.

Section HookFacts.
Context `{Collaborators}.

Lemma nominate_effect_hooks_all effect_list nominee nominator :
  ∀ proceed g,
    nominate_effect_hooks effect_list nominee nominator proceed g
    = (bs <- run_effect_hooks effect_list nominee nominator ;;
       ret (forallb id bs && proceed)) g.
Proof.
  induction effect_list as [|effect rest IH]; intros proceed g; simpl; [done|].
  rewrite bind_assoc. apply bind_ext. intros b g1.
  rewrite IH, bind_assoc. apply bind_ext. intros bs g2.
  unfold bind, ret. simpl. f_equal. by destruct b, (forallb id bs), proceed.
Qed.

Lemma nominate_player_hooks_all seating nominee nominator :
  ∀ proceed g,
    nominate_player_hooks seating nominee nominator proceed g
    = (bs <- run_all_hooks seating nominee nominator ;;
       ret (forallb id bs && proceed)) g.
Proof.
  induction seating as [|player rest IH]; intros proceed g; simpl; [done|].
  unfold bind, get. cbv beta zeta.
  destruct (character_nomination player nominee nominator g) as [b g1| | |]; try done.
  rewrite nominate_effect_hooks_all. unfold bind, ret.
  destruct (run_effect_hooks _ nominee nominator g1) as [bs g2| | |]; try done.
  rewrite IH. unfold bind, ret.
  destruct (run_all_hooks rest nominee nominator g2) as [bs' g3| | |]; try done.
  f_equal. simpl. rewrite forallb_app.
  by destruct b, (forallb id bs), (forallb id bs'), proceed.
Qed.

Lemma Day_nominate_hooks_all nominee nominator g :
  Day_nominate_hooks nominee nominator g
  = (bs <- run_all_hooks (seating_order g) nominee nominator ;; ret (forallb id bs)) g.
Proof.
  unfold Day_nominate_hooks. unfold bind at 1, get.
  rewrite nominate_player_hooks_all. apply bind_ext. intros bs g1.
  unfold ret. by rewrite andb_true_r.
Qed.

End HookFacts.

Lemma modify_day_inv f g u g' :
  modify_day f g = Ok u g' →
  ∃ d, current_day g = Some d ∧ g' = set_current_day (Some (f d)) g.
Proof.
  unfold modify_day, the_day, bind, get, modify, ret, raise.
  destruct (current_day g) as [d|]; [|done]. intros [= _ <-]. by exists d.
Qed.

Section NominationFacts.
Context `{Collaborators}.

Lemma Vote_twice_loop_state fuel aliased :
  ∀ i ord g ord' g',
    Vote_twice_loop fuel aliased i ord g = Ok ord' g' →
    players g' = players g ∧ current_day g' = current_day g
    ∧ vote_objs g' = vote_objs g.
Proof.
  induction fuel as [|fuel IH]; intros i ord g ord' g'; simpl.
  - destruct (ord !! i); [done|]. by intros [= _ <-].
  - destruct (ord !! i) as [p|]; [|by intros [= _ <-]].
    unfold bind at 1, get.
    destruct (is_status g p "can_vote_twice"); [|apply IH].
    destruct (Py.index p ord) as [j|]; [|done].
    destruct aliased; unfold bind, modify, ret; intros Hloop; by apply IH in Hloop.
Qed.

Lemma Vote_init_state fuel nominee_p nominator_p g v g' :
  Vote_init fuel nominee_p nominator_p g = Ok v g' →
  players g' = players g ∧ current_day g' = current_day g
  ∧ vote_objs g' = vote_objs g
  ∧ nominee v = nominee_p ∧ nominator v = nominator_p.
Proof.
  intros Hinit. apply Vote_init_inv in Hinit as (v0 & ord & Hbegin & Hloop & ->).
  apply Vote_twice_loop_state in Hloop as (? & ? & ?).
  repeat (split; [done|]).
  revert Hbegin. unfold Vote_begin, bind, get, ret, raise. cbv beta.
  destruct (current_day g); [|done].
  destruct (Vote_initial_order _ _ _); [|done]. by intros [= <-].
Qed.

Lemma Day_close_pms_inv g u g' :
  Day_close_pms g = Ok u g' →
  ∃ d, current_day g = Some d
       ∧ current_day g' = Some (set_is_pms false d)
       ∧ players g' = players g ∧ vote_objs g' = vote_objs g.
Proof.
  unfold Day_close_pms. intros (u1 & g1 & Hm & Hn)%bind_inv.
  apply modify_day_inv in Hm as (d & Hd & ->).
  rewrite notify_storytellers_Ok in Hn. injection Hn as _ <-. by exists d.
Qed.

Lemma Day_close_noms_inv g u g' :
  Day_close_noms g = Ok u g' →
  ∃ d, current_day g = Some d
       ∧ current_day g' = Some (set_is_noms false d)
       ∧ players g' = players g ∧ vote_objs g' = vote_objs g.
Proof.
  unfold Day_close_noms. intros (u1 & g1 & Hm & Hn)%bind_inv.
  apply modify_day_inv in Hm as (d & Hd & ->).
  rewrite notify_storytellers_Ok in Hn. injection Hn as _ <-. by exists d.
Qed.

End NominationFacts.

Section NominationReturns.
Context `{Collaborators}.

(** A holder of "can_vote_twice" at or after the iterator stops the loop
    from ever finishing, in the order of the vote as in the seating order
    itself. *)
Lemma Vote_twice_loop_never_returns fuel aliased p :
  (∀ g, is_status g p "can_vote_twice" = true) →
  ∀ g i ord k,
    i ≤ k → ord !! k = Some p →
    Vote_twice_loop fuel aliased i ord g = OutOfFuel.
Proof.
  intros Hp. induction fuel as [|fuel IH]; intros g i ord k Hik Hk.
  - simpl. destruct (ord !! i) eqn:Hi; [done|].
    apply lookup_ge_None in Hi. apply lookup_lt_Some in Hk. lia.
  - simpl. destruct (ord !! i) as [q|] eqn:Hi.
    2:{ apply lookup_ge_None in Hi. apply lookup_lt_Some in Hk. lia. }
    unfold bind at 1. simpl.
    destruct (is_status g q "can_vote_twice") eqn:Hq.
    + destruct (index_le _ _ _ Hi) as (j & Hj & Hji). rewrite Hj.
      assert (Py.insert j q ord !! S k = Some p) as Hnext.
      { rewrite insert_lookup_shift; [done|lia|].
        apply lookup_lt_Some in Hi. lia. }
      destruct aliased; unfold bind, modify, ret.
      all: apply (IH _ (S i) _ (S k)); [lia|done].
    + assert (i ≠ k).
      { intros ->. rewrite Hk in Hi. injection Hi as <-. by rewrite Hp in Hq. }
      apply (IH _ _ _ k); [lia|done].
Qed.

Lemma Day_close_pms_Ok g d :
  current_day g = Some d →
  Day_close_pms g
  = Ok tt (set_outbox (outbox g ++ map (λ st, SentMember st "PMs are now closed.")
                         (storytellers g) ++ [StatusUpdated])
             (set_current_day (Some (set_is_pms false d)) g)).
Proof.
  intros Hd. unfold Day_close_pms.
  erewrite bind_Ok;
    [|unfold modify_day, the_day, bind, get, modify; simpl; by rewrite Hd].
  by rewrite notify_storytellers_Ok.
Qed.

Lemma Day_close_noms_Ok g d :
  current_day g = Some d →
  Day_close_noms g
  = Ok tt (set_outbox (outbox g ++ map (λ st, SentMember st "Nominations are now closed.")
                         (storytellers g) ++ [StatusUpdated])
             (set_current_day (Some (set_is_noms false d)) g)).
Proof.
  intros Hd. unfold Day_close_noms.
  erewrite bind_Ok;
    [|unfold modify_day, the_day, bind, get, modify; simpl; by rewrite Hd].
  by rewrite notify_storytellers_Ok.
Qed.

Lemma Day_nominate_adjust_Ok nominee_p nominator_p g ga :
  (is_status g nominee_p "storyteller" || is_status g nominee_p "traveler" = false →
   add_nomination nominator_p g = Ok tt ga) →
  Day_nominate_adjust nominee_p nominator_p g
  = Ok tt (update_player nominee_p mark_nominated
             (if is_status g nominee_p "storyteller" || is_status g nominee_p "traveler"
              then g else ga)).
Proof.
  intros Hadd. unfold Day_nominate_adjust. unfold bind at 1, get.
  destruct (is_status g nominee_p "storyteller" || is_status g nominee_p "traveler");
    simpl; [done|].
  by erewrite bind_Ok by (by apply Hadd).
Qed.

Lemma initial_order_seated g nominee_p :
  nominee_p ∈ seating_order g ∨ is_status g nominee_p "storyteller" = true →
  ∃ ord, Vote_initial_order g nominee_p (is_status g nominee_p "storyteller") = Some ord
         ∧ ord ≡ₚ seating_order g.
Proof.
  intros Hseat. unfold Vote_initial_order.
  destruct (is_status g nominee_p "storyteller") eqn:Hst; [by eexists|].
  destruct Hseat as [Hin|]; [|done].
  destruct (Py.index nominee_p (seating_order g)) as [i|] eqn:Hi.
  - simpl. eexists. split; [done|].
    rewrite Permutation_app_comm. by rewrite take_drop.
  - by apply index_None in Hi.
Qed.

Lemma bind_OutOfFuel {A B} (m : M A) (k : A → M B) g :
  m g = OutOfFuel → bind m k g = OutOfFuel.
Proof. unfold bind. by intros ->. Qed.

(** The steps of [Day.nominate] from line 81 to the call of the
    constructor. *)
Lemma Day_nominate_begin_vote_prefix fuel nominee_p nominator_p g ga d :
  let gx := if is_status g nominee_p "storyteller" || is_status g nominee_p "traveler"
            then g else ga in
  (is_status g nominee_p "storyteller" || is_status g nominee_p "traveler" = false →
   add_nomination nominator_p g = Ok tt ga) →
  current_day gx = Some d →
  ∃ g4,
    Day_nominate_begin_vote fuel nominee_p nominator_p g
    = (v <- Vote_init fuel nominee_p nominator_p ;;
       g <- get ;;
       let self := fresh (dom (vote_objs g)) in
       modify (set_vote_objs (<[self := v]> (vote_objs g))) ;;;
       modify_day (set_current_vote (Some self)) ;;;
       ret self) g4
    ∧ players g4 = <[nominee_p := mark_nominated (player_data gx nominee_p)]> (players gx)
    ∧ current_day g4 = Some (set_is_noms false (set_is_pms false d))
    ∧ vote_objs g4 = vote_objs gx
    ∧ seating_order g4 = seating_order gx.
Proof.
  intros gx Hadd Hd. unfold Day_nominate_begin_vote.
  erewrite bind_Ok by (by apply Day_nominate_adjust_Ok). fold gx.
  erewrite bind_Ok by (by apply (Day_close_pms_Ok _ d)).
  erewrite bind_Ok by (by apply (Day_close_noms_Ok _ (set_is_pms false d))).
  eexists. split; [reflexivity|]. done.
Qed.

Lemma Day_nominate_begin_vote_returns fuel nominee_p nominator_p g ga d :
  let gx := if is_status g nominee_p "storyteller" || is_status g nominee_p "traveler"
            then g else ga in
  let self := fresh (dom (vote_objs gx)) in
  (is_status g nominee_p "storyteller" || is_status g nominee_p "traveler" = false →
   add_nomination nominator_p g = Ok tt ga) →
  current_day gx = Some d →
  nominee_p ∈ seating_order gx ∨ (∀ g', is_status g' nominee_p "storyteller" = true) →
  (∀ g' p, p ∈ seating_order gx → is_status g' p "can_vote_twice" = false) →
  length (seating_order gx) ≤ fuel →
  ∃ v g',
    Day_nominate_begin_vote fuel nominee_p nominator_p g = Ok self g'
    ∧ players g' = <[nominee_p := mark_nominated (player_data gx nominee_p)]> (players gx)
    ∧ current_day g'
      = Some (set_current_vote (Some self) (set_is_noms false (set_is_pms false d)))
    ∧ vote_objs g' = <[self := v]> (vote_objs gx)
    ∧ seating_order g' = seating_order gx
    ∧ nominee v = nominee_p ∧ nominator v = nominator_p
    ∧ position v = 0 ∧ votes v = 0%Z ∧ voted v = [] ∧ prevotes v = ∅
    ∧ announcements v = []
    ∧ order v ≡ₚ seating_order gx.
Proof.
  intros gx self Hadd Hd Hseat Hnone Hfuel.
  destruct (Day_nominate_begin_vote_prefix fuel nominee_p nominator_p g ga d Hadd Hd)
    as (g4 & -> & Hp4 & Hd4 & Hv4 & Hs4).
  fold gx in Hp4, Hv4, Hs4.
  destruct (initial_order_seated g4 nominee_p) as (ord & Hord & Hperm).
  { rewrite Hs4. destruct Hseat as [?|Hst]; [by left | right; apply Hst]. }
  unfold Vote_init. rewrite bind_assoc.
  erewrite bind_Ok by (by eapply Vote_begin_Ok). rewrite bind_assoc.
  erewrite bind_Ok.
  2:{ apply Vote_twice_loop_returns.
      - intros p Hp. apply Hnone. by rewrite <- Hs4, <- Hperm.
      - simpl. rewrite Hperm, Hs4. lia. }
  unfold ret at 1. unfold bind at 1. unfold bind at 1, get.
  unfold bind at 1, modify at 1.
  erewrite bind_Ok.
  2:{ unfold modify_day, the_day, bind, get, modify. simpl. rewrite Hd4. reflexivity. }
  unfold ret. cbv beta zeta. rewrite Hv4. fold self.
  eexists _, _. split; [reflexivity|]. simpl.
  rewrite <- Hs4. repeat split; done.
Qed.

Lemma Day_nominate_begin_vote_never_returns nominee_p nominator_p g ga d p :
  let gx := if is_status g nominee_p "storyteller" || is_status g nominee_p "traveler"
            then g else ga in
  (is_status g nominee_p "storyteller" || is_status g nominee_p "traveler" = false →
   add_nomination nominator_p g = Ok tt ga) →
  current_day gx = Some d →
  nominee_p ∈ seating_order gx ∨ (∀ g', is_status g' nominee_p "storyteller" = true) →
  p ∈ seating_order gx →
  (∀ g', is_status g' p "can_vote_twice" = true) →
  ∀ fuel, Day_nominate_begin_vote fuel nominee_p nominator_p g = OutOfFuel.
Proof.
  intros gx Hadd Hd Hseat Hp Htwice fuel.
  destruct (Day_nominate_begin_vote_prefix fuel nominee_p nominator_p g ga d Hadd Hd)
    as (g4 & -> & Hp4 & Hd4 & Hv4 & Hs4).
  fold gx in Hp4, Hv4, Hs4.
  destruct (initial_order_seated g4 nominee_p) as (ord & Hord & Hperm).
  { rewrite Hs4. destruct Hseat as [?|Hst]; [by left | right; apply Hst]. }
  apply bind_OutOfFuel. unfold Vote_init.
  erewrite bind_Ok by (by eapply Vote_begin_Ok).
  apply bind_OutOfFuel. simpl.
  assert (p ∈ ord) as Hin by (by rewrite Hperm, Hs4).
  apply list_elem_of_lookup_1 in Hin as [k Hk].
  apply (Vote_twice_loop_never_returns fuel _ p Htwice g4 0 ord k); [lia|done].
Qed.

End NominationReturns.

(** C7 (the code departs from the claim).  [Day.nominate] has found the
    nominee and both checks have passed; running the hook of every seated
    player, each followed by the hooks of that player's effects, gives the
    verdicts [bs] and the state [g1].  The loop of [Day.nominate] ends in
    that same state, every hook run whatever the verdicts before it, and
    its verdict is the conjunction of [bs].  With a veto among them
    [Day.nominate] returns in the state the hooks left.  With every
    verdict true, [add_nomination] returning when it is called (it is
    called unless the nominee is a storyteller or a traveler), a day
    running and the nominee seated or a storyteller:
    - when nobody seated holds "can_vote_twice", [Day.nominate] reaches its
      announcement with the nominee marked as nominated, PMs and
      nominations closed, and a new vote object, on the seated players and
      with nothing cast yet, as the day's current vote;
    - when a seated player holds "can_vote_twice", [Day.nominate] never
      returns, whatever the number of loop turns allowed: the constructor
      of the vote does not come back and no vote becomes current. *)
Theorem C7_nomination_proceeds_unless_someone_votes_twice `{Collaborators}
    (nominee_str : string) (nominee_p nominator_p : Player) (g g0 g1 ga : Game)
    (bs : list bool) (d : Day) :
  determine_nominee nominee_str g = Ok nominee_p g0 →
  check_valid_nominator nominator_p nominee_p g0 = Ok tt g0 →
  check_valid_nominee nominator_p nominee_p g0 = Ok tt g0 →
  run_all_hooks (seating_order g0) nominee_p nominator_p g0 = Ok bs g1 →
  let exempt :=
    is_status g1 nominee_p "storyteller" || is_status g1 nominee_p "traveler" in
  let gx := if exempt then g1 else ga in
  let self := fresh (dom (vote_objs gx)) in
  Day_nominate_hooks nominee_p nominator_p g0 = Ok (forallb id bs) g1
  ∧ (forallb id bs = false →
     ∀ fuel, Day_nominate fuel nominee_str nominator_p g = Ok tt g1)
  ∧ (forallb id bs = true →
     (exempt = false → add_nomination nominator_p g1 = Ok tt ga) →
     current_day gx = Some d →
     nominee_p ∈ seating_order gx ∨ (∀ g', is_status g' nominee_p "storyteller" = true) →
     ((∀ g' p, p ∈ seating_order gx → is_status g' p "can_vote_twice" = false) →
      ∀ fuel, length (seating_order gx) ≤ fuel →
      ∃ v g',
        Day_nominate fuel nominee_str nominator_p g
        = Day_nominate_announce fuel self nominee_p nominator_p g'
        ∧ (self ∉ dom (vote_objs gx))
        ∧ vote_objs g' = <[self := v]> (vote_objs gx)
        ∧ nominee v = nominee_p ∧ nominator v = nominator_p
        ∧ position v = 0 ∧ votes v = 0%Z ∧ voted v = []
        ∧ order v ≡ₚ seating_order gx
        ∧ current_day g'
          = Some (set_current_vote (Some self) (set_is_noms false (set_is_pms false d)))
        ∧ players g' = <[nominee_p := mark_nominated (player_data gx nominee_p)]> (players gx))
     ∧ (∀ p, p ∈ seating_order gx →
        (∀ g', is_status g' p "can_vote_twice" = true) →
        ∀ fuel, Day_nominate fuel nominee_str nominator_p g = OutOfFuel)).
Proof.
  intros Hnominee Hnominator Hvalid Hhooks exempt gx self.
  assert (Day_nominate_hooks nominee_p nominator_p g0 = Ok (forallb id bs) g1) as Hloop.
  { rewrite Day_nominate_hooks_all. by erewrite bind_Ok by exact Hhooks. }
  assert (∀ fuel, Day_nominate fuel nominee_str nominator_p g
                  = (if negb (forallb id bs) then ret tt
                     else self <- Day_nominate_begin_vote fuel nominee_p nominator_p ;;
                          Day_nominate_announce fuel self nominee_p nominator_p) g1)
    as Hnominate.
  { intros fuel. unfold Day_nominate.
    erewrite bind_Ok by exact Hnominee. erewrite bind_Ok by exact Hnominator.
    erewrite bind_Ok by exact Hvalid. by erewrite bind_Ok by exact Hloop. }
  split; [exact Hloop|]. split.
  - intros Hveto fuel. by rewrite Hnominate, Hveto.
  - intros Hall Hadd Hd Hseat. split.
    + intros Hnone fuel Hfuel.
      destruct (Day_nominate_begin_vote_returns fuel nominee_p nominator_p g1 ga d
                  Hadd Hd Hseat Hnone Hfuel)
        as (v & g' & Hbegin & Hplayers & Hday & Hvotes & _ & Hv).
      exists v, g'. rewrite Hnominate, Hall. simpl.
      erewrite bind_Ok by exact Hbegin.
      split; [done|]. split; [apply is_fresh|]. split; [done|].
      destruct Hv as (? & ? & ? & ? & ? & _ & _ & ?). done.
    + intros p Hp Htwice fuel. rewrite Hnominate, Hall. simpl.
      apply bind_OutOfFuel.
      by apply (Day_nominate_begin_vote_never_returns nominee_p nominator_p g1 ga d p).
Qed.

(** C7 on games of five and three players: player 1 vetoes, the hooks of
    players 2, 3 and 4 still run and the nomination stops; nobody vetoes
    and the nomination goes on, the nominator's count going up; player 1
    votes twice, every hook agrees, and the nomination never returns. *)
Lemma C7_nomination_witness :
  (∃ g1,
     @Day_nominate_hooks (table_collaborators veto_tables) 2 0 (new_game 5) = Ok false g1
     ∧ outbox g1 = (λ p, SentMember p "nomination hook") <$> [0; 1; 2; 3; 4]
     ∧ ∀ fuel, @Day_nominate (table_collaborators veto_tables) fuel "P2" 0 (new_game 5)
               = Ok tt g1)
  ∧ (∃ v g',
       @Day_nominate (table_collaborators scenario_A) 10 "P2" 0 (new_game 5)
       = @Day_nominate_announce (table_collaborators scenario_A) 10 0 2 0 g'
       ∧ vote_objs g' = {[0 := v]}
       ∧ order v ≡ₚ [0; 1; 2; 3; 4]
       ∧ current_day g' = Some (mkDay false false [] (Some 0) None [])
       ∧ has_been_nominated (player_data g' 2) = true
       ∧ nominations_today (player_data g' 0) = 1%Z)
  ∧ ∀ fuel, @Day_nominate (table_collaborators votes_twice_tables) fuel "P2" 0 (new_game 3)
            = OutOfFuel.
Proof.
  split; [|split].
  - pose (g1 := state_after (@run_all_hooks (table_collaborators veto_tables)
                               (seq 0 5) 2 0) (new_game 5)).
    destruct (@C7_nomination_proceeds_unless_someone_votes_twice
                (table_collaborators veto_tables) "P2" 2 0
                (new_game 5) (new_game 5) g1 g1 [true; false; true; true; true] new_day)
      as (Hhooks & Hveto & _); try reflexivity.
    exists g1. split; [exact Hhooks|]. split; [reflexivity|]. by apply Hveto.
  - pose (g1 := state_after (@run_all_hooks (table_collaborators scenario_A)
                               (seq 0 5) 2 0) (new_game 5)).
    pose (ga := state_after (@add_nomination (table_collaborators scenario_A) 0) g1).
    destruct (@C7_nomination_proceeds_unless_someone_votes_twice
                (table_collaborators scenario_A) "P2" 2 0
                (new_game 5) (new_game 5) g1 ga [true; true; true; true; true] new_day)
      as (_ & _ & Hall); try reflexivity.
    destruct Hall as [Hgoes _]; try reflexivity.
    { left. by apply (bool_decide_unpack _). }
    destruct (Hgoes ltac:(reflexivity) 10 ltac:(vm_compute; lia))
      as (v & g' & Hrun & _ & Hvotes & _ & _ & _ & _ & _ & Hord & Hday & Hplayers).
    exists v, g'. split; [exact Hrun|]. split; [exact Hvotes|]. split; [exact Hord|].
    split; [exact Hday|]. unfold player_data. rewrite Hplayers. split; reflexivity.
  - pose (g1 := state_after (@run_all_hooks (table_collaborators votes_twice_tables)
                               (seq 0 3) 2 0) (new_game 3)).
    pose (ga := state_after (@add_nomination (table_collaborators votes_twice_tables) 0) g1).
    destruct (@C7_nomination_proceeds_unless_someone_votes_twice
                (table_collaborators votes_twice_tables) "P2" 2 0
                (new_game 3) (new_game 3) g1 ga [true; true; true] new_day)
      as (_ & _ & Hall); try reflexivity.
    destruct Hall as [_ Hhangs]; try reflexivity.
    { left. by apply (bool_decide_unpack _). }
    apply (Hhangs 1); [by apply (bool_decide_unpack _) | reflexivity].
Defined.

(** ** Scenario A, end to end *)

(** Three yes votes against a majority of 5/2: player 2 is about to die, on
    the end message, number 12 in the channel. *)
Example scenario_A_three_yes :
  about_to_die_after (play_scenario_A [true; true; true; false; false]) (new_game 5)
  = Some (Some (2, 3%Z, 12%Z)).
Proof. reflexivity. Qed.

(** Two yes votes: nobody is about to die. *)
Example scenario_A_two_yes :
  about_to_die_after (play_scenario_A [true; true; false; false; false]) (new_game 5)
  = Some None.
Proof. reflexivity. Qed.

(** ** Two nominations, end to end *)

(** Player 2 is about to die on three votes, announced in message 12 with
    the yes-voters listed.  The vote on player 1 then ties at three: nobody
    is about to die, and the edit leaves message 12 reading "ex notecuted". *)
Example second_nomination_ties :
  about_to_die_after (play_second_nomination [true; true; true; false; false]) (new_game 5)
  = Some None
  ∧ content_after (play_scenario_A [true; true; true; false; false]) (new_game 5) 12
    = Some ("3 votes on P2 (nominated by P0). They are about to be executed."
            +:+ Py.nl +:+ "- P3" +:+ Py.nl +:+ "- P4" +:+ Py.nl +:+ "- P0")
  ∧ content_after (play_second_nomination [true; true; true; false; false]) (new_game 5) 12
    = Some ("3 votes on P2 (nominated by P0). They are about to be ex notecuted."
            +:+ Py.nl +:+ "- P3" +:+ Py.nl +:+ "- P4" +:+ Py.nl +:+ "- P0").
Proof. split; [|split]; reflexivity. Qed.

(** With four yes votes player 1 takes the place of player 2, on the new
    end message, number 25; message 12 is edited the same way. *)
Example second_nomination_wins :
  about_to_die_after (play_second_nomination [true; true; true; true; false]) (new_game 5)
  = Some (Some (1, 4%Z, 25%Z))
  ∧ content_after (play_second_nomination [true; true; true; true; false]) (new_game 5) 12
    = Some ("3 votes on P2 (nominated by P0). They are about to be ex notecuted."
            +:+ Py.nl +:+ "- P3" +:+ Py.nl +:+ "- P4" +:+ Py.nl +:+ "- P0").
Proof. split; reflexivity. Qed.

(** With two yes votes nothing changes. *)
Example second_nomination_fails :
  about_to_die_after (play_second_nomination [true; true; false; false; false]) (new_game 5)
  = Some (Some (2, 3%Z, 12%Z))
  ∧ content_after (play_second_nomination [true; true; false; false; false]) (new_game 5) 12
    = Some ("3 votes on P2 (nominated by P0). They are about to be executed."
            +:+ Py.nl +:+ "- P3" +:+ Py.nl +:+ "- P4" +:+ Py.nl +:+ "- P0").
Proof. split; reflexivity. Qed.

(** * Further properties of the engine *)

(** ** The voting order and the announced majority *)

(** X1.  For a vote that is not on the storytellers the constructor needs
    the nominee among the seated players ([list.index] raises
    otherwise).  The order it builds is the seating order turned round: the
    same players, starting with the seat after the nominee's first seat,
    going round the table, and ending with the nominee. *)
Theorem X1_initial_order_is_rotation `{Collaborators} (g : Game) (nominee_p : Player) :
  (Vote_initial_order g nominee_p false = None ↔ nominee_p ∉ seating_order g)
  ∧ ∀ ord, Vote_initial_order g nominee_p false = Some ord →
      ord ≡ₚ seating_order g
      ∧ last ord = Some nominee_p
      ∧ ∃ i, Py.index nominee_p (seating_order g) = Some i
             ∧ ∀ k, k < length ord →
                    ord !! k = seating_order g !! ((i + 1 + k) mod length ord).
Proof.
  unfold Vote_initial_order. split.
  - destruct (Py.index nominee_p (seating_order g)) as [i|] eqn:Hi; simpl.
    + split; [done|]. intros Hnot. apply index_None in Hnot. congruence.
    + split; [|done]. intros _. by apply index_None.
  - intros ord. destruct (Py.index nominee_p (seating_order g)) as [i|] eqn:Hidx;
      simpl; [|done].
    intros [= <-]. destruct (index_Some _ _ _ Hidx) as [Hi _].
    set (l := seating_order g) in *.
    assert (i < length l) as Hlt by (by eapply lookup_lt_Some).
    rewrite Nat.add_1_r.
    split; [|split].
    + rewrite Permutation_app_comm. by rewrite take_drop.
    + rewrite last_app. rewrite (take_S_r l i nominee_p) by done.
      by rewrite last_snoc.
    + exists i. split; [done|]. intros k Hk.
      rewrite length_app, length_take, length_drop in *.
      replace (length l - S i + S i `min` length l) with (length l) in * by lia.
      destruct (decide (k < length l - S i)) as [Hsmall|Hlarge].
      * rewrite lookup_app_l by (rewrite length_drop; lia).
        rewrite lookup_drop. f_equal. rewrite Nat.mod_small; lia.
      * rewrite lookup_app_r by (rewrite length_drop; lia).
        rewrite length_drop, lookup_take_lt by lia. f_equal.
        apply (Nat.mod_unique _ _ 1); lia.
Qed.


(** X3.  When nobody in the order holds "can_vote_twice" the constructor
    returns: the loop over the order takes one turn per entry and changes
    nothing.  The vote is the one set up before the loop, as long as the
    seating order, with no vote cast and nobody called yet, and the game is
    left as it was. *)
Theorem X3_construction_returns_without_votes_twice `{Collaborators}
    (g : Game) (nominee_p nominator_p : Player) (d : Day) (ord : list Player)
    (fuel : nat) :
  current_day g = Some d →
  Vote_initial_order g nominee_p (is_status g nominee_p "storyteller") = Some ord →
  (∀ p, p ∈ ord → is_status g p "can_vote_twice" = false) →
  length (seating_order g) ≤ fuel →
  ∃ v,
    Vote_init fuel nominee_p nominator_p g = Ok v g
    ∧ nominee v = nominee_p ∧ nominator v = nominator_p
    ∧ order v = ord ∧ length (order v) = length (seating_order g)
    ∧ position v = 0 ∧ votes v = 0%Z ∧ voted v = []
    ∧ prevotes v = ∅ ∧ announcements v = []
    ∧ majority v = Vote_initial_majority g d (is_status g nominee_p "traveler") ord.
Proof.
  intros Hd Hord Hnone Hfuel. unfold Vote_init.
  erewrite bind_Ok by (by apply Vote_begin_Ok). simpl.
  erewrite bind_Ok.
  2:{ apply Vote_twice_loop_returns; [done|].
      rewrite (initial_order_length _ _ _ _ Hord). lia. }
  eexists. split; [reflexivity|]. simpl.
  repeat (split; [done|]). split; [by eapply initial_order_length|]. done.
Qed.

(** X3 on scenario A: player 2 nominated by player 0; five turns of the loop
    are enough. *)
Lemma X3_construction_witness :
  ∃ v,
    @Vote_init (table_collaborators scenario_A) 5 2 0 (new_game 5) = Ok v (new_game 5)
    ∧ order v = [3; 4; 0; 1; 2] ∧ position v = 0 ∧ voted v = [].
Proof.
  destruct (@X3_construction_returns_without_votes_twice (table_collaborators scenario_A)
              (new_game 5) 2 0 new_day [3; 4; 0; 1; 2] 5 eq_refl eq_refl)
    as (v & Hinit & _ & _ & Hord & _ & Hpos & _ & Hvoted & _).
  - intros p _. reflexivity.
  - simpl. lia.
  - by exists v.
Defined.

(** ** Cancelling a vote *)

Lemma unpinned_is_Some ids : ∀ (ch : gmap Z Message) a,
  is_Some (unpinned ids ch !! a) ↔ is_Some (ch !! a).
Proof.
  induction ids as [|idn ids IH]; intros ch a; simpl; [done|].
  rewrite IH, lookup_alter. case_decide; [|done]. subst.
  by rewrite fmap_is_Some.
Qed.

Lemma unpinned_keeps_unpinned ids : ∀ (ch : gmap Z Message) a,
  pinned <$> (ch !! a) = Some false → pinned <$> (unpinned ids ch !! a) = Some false.
Proof.
  induction ids as [|idn ids IH]; intros ch a Ha; simpl; [done|].
  apply IH. rewrite lookup_alter. case_decide; [|done]. subst.
  by destruct (ch !! a).
Qed.

(** After the unpin loop no message of the list is pinned. *)
Lemma unpinned_unpins ids : ∀ (ch : gmap Z Message) a,
  a ∈ ids → is_Some (ch !! a) → pinned <$> (unpinned ids ch !! a) = Some false.
Proof.
  induction ids as [|idn ids IH]; intros ch a Hin [m Hm]; simpl.
  - by apply elem_of_nil in Hin.
  - destruct (decide (a = idn)) as [->|Hne].
    + apply unpinned_keeps_unpinned. rewrite lookup_alter_eq. by rewrite Hm.
    + apply elem_of_cons in Hin as [?|Hin]; [done|].
      apply IH; [done|]. rewrite lookup_alter_ne by done. by eexists.
Qed.

Lemma cancel_players_dead_votes v g p :
  dead_votes (player_data (cancel_players v g) p) = dead_votes (player_data g p).
Proof.
  unfold cancel_players.
  destruct (negb (traveler v) || storyteller v); simpl.
  - destruct (decide (p = nominee v)) as [->|Hnee].
    + rewrite lookup_total_insert_eq. simpl.
      destruct (decide (nominee v = nominator v)) as [<-|Hnor].
      * by rewrite lookup_total_insert_eq.
      * by rewrite lookup_total_insert_ne.
    + rewrite lookup_total_insert_ne by done.
      destruct (decide (p = nominator v)) as [->|Hnor].
      * by rewrite lookup_total_insert_eq.
      * by rewrite lookup_total_insert_ne.
  - destruct (decide (p = nominee v)) as [->|Hnee].
    + by rewrite lookup_total_insert_eq.
    + by rewrite lookup_total_insert_ne.
Qed.

Lemma cancel_players_frame v g :
  current_day (cancel_players v g) = current_day g
  ∧ vote_objs (cancel_players v g) = vote_objs g.
Proof. unfold cancel_players. by destruct (negb (traveler v) || storyteller v). Qed.

Section CancelFacts.
Context `{Collaborators}.

(** The state [Vote.cancel] leaves when the vote is live. *)
Lemma Vote_cancel_live_state g d self :
  current_day g = Some d → current_vote d = Some self →
  (∀ idn, idn ∈ announcements (vote_obj g self) → is_Some (channel g !! idn)) →
  ∃ out,
    Vote_cancel self g
    = Ok tt (set_channel
               (unpinned (announcements (vote_obj g self))
                  (<[next_message g := mkMessage "Nomination cancelled." false]>
                     (channel g)))
               (next_message g + 1)%Z
               (set_outbox out
                  (cancel_players (vote_obj g self)
                     (set_current_day
                        (Some (set_is_noms true (set_is_pms true (set_current_vote None d))))
                        g)))).
Proof.
  intros Hd Hv Hids. destruct g as [so sts dn cd pd pl vo eo ch nm ob ib].
  simpl in *. subst cd.
  unfold Vote_cancel. mstep.
  rewrite bool_decide_eq_true_2 by done.
  mstep. mstep.
  erewrite bind_Ok by (by apply Day_open_pms_Ok). simpl.
  erewrite bind_Ok by (by apply Day_open_noms_Ok). simpl.
  mstep. unfold cancel_players, vote_obj in *. simpl in *.
  set (v := vo !!! self) in *.
  destruct (negb (traveler v) || storyteller v) eqn:Hrefund.
  all: mstep; mstep; mstep; mstep.
  all: rewrite unpin_all_Ok;
    [ simpl; eexists; reflexivity
    | simpl; intros idn Hin; rewrite lookup_insert; case_decide; [done|]; by apply Hids ].
Qed.

End CancelFacts.

(** X4.  Cancelling the live vote returns.  The day has no current vote and
    PMs and nominations are open again; the vote is not added to
    [past_votes], and [about_to_die] and the list of end messages stay as
    they were.  No vote object changes and no player's count of dead votes
    changes: a dead vote spent in the cancelled vote stays spent.  The
    channel gets the message "Nomination cancelled.", and every announcement
    of the vote is left unpinned. *)
Theorem X4_cancel_leaves_no_record `{Collaborators}
    (g : Game) (d : Day) (self : VoteRef) :
  current_day g = Some d →
  current_vote d = Some self →
  (∀ idn, idn ∈ announcements (vote_obj g self) → is_Some (channel g !! idn)) →
  ∃ g' d',
    Vote_cancel self g = Ok tt g'
    ∧ current_day g' = Some d'
    ∧ current_vote d' = None ∧ is_pms d' = true ∧ is_noms d' = true
    ∧ past_votes d' = past_votes d
    ∧ about_to_die d' = about_to_die d
    ∧ vote_end_messages d' = vote_end_messages d
    ∧ vote_objs g' = vote_objs g
    ∧ (∀ p, dead_votes (player_data g' p) = dead_votes (player_data g p))
    ∧ content <$> (channel g' !! next_message g) = Some "Nomination cancelled."
    ∧ ∀ idn, idn ∈ announcements (vote_obj g self) →
             pinned <$> (channel g' !! idn) = Some false.
Proof.
  intros Hd Hv Hids.
  destruct (Vote_cancel_live_state g d self Hd Hv Hids) as [out Hcancel].
  set (d1 := set_is_noms true (set_is_pms true (set_current_vote None d))) in *.
  destruct (cancel_players_frame (vote_obj g self) (set_current_day (Some d1) g))
    as [Hday Hvotes].
  eexists _, d1. split; [exact Hcancel|].
  split; [exact Hday|]. do 6 (split; [reflexivity|]).
  split; [exact Hvotes|].
  split; [intros p; apply (cancel_players_dead_votes _ (set_current_day (Some d1) g))|].
  split.
  - simpl. rewrite unpinned_lookup. by rewrite lookup_insert_eq.
  - intros idn Hin. simpl. apply unpinned_unpins; [done|].
    rewrite lookup_insert. case_decide; [done|]. by apply Hids.
Qed.

(** X4 on scenario B: the vote on player 2 is cancelled; player 1 is still
    about to die and message 1, the nomination, is no longer pinned. *)
Lemma X4_cancel_witness :
  ∃ g' d',
    Vote_cancel 0 (scenario_B 3) = Ok tt g'
    ∧ current_day g' = Some d'
    ∧ current_vote d' = None ∧ past_votes d' = []
    ∧ about_to_die d' = Some (1, 3%Z, 0%Z)
    ∧ pinned <$> (channel g' !! 1%Z) = Some false.
Proof.
  destruct (@X4_cancel_leaves_no_record (table_collaborators scenario_A)
              (scenario_B 3) (mkDay false false [] (Some 0) (Some (1, 3%Z, 0%Z)) [])
              0 eq_refl eq_refl)
    as (g' & d' & Hcancel & Hd' & Hcur & _ & _ & Hpast & Hatd & _ & _ & _ & _ & Hpins).
  - intros idn Hin. apply list_elem_of_singleton in Hin as ->. by eexists.
  - exists g', d'. repeat (split; [done|]). apply Hpins. by apply list_elem_of_singleton.
Defined.

(** ** Ending the first vote of a day *)

Lemma unpinned_other ids : ∀ (ch : gmap Z Message) a,
  a ∉ ids → unpinned ids ch !! a = ch !! a.
Proof.
  induction ids as [|idn ids IH]; intros ch a Hin; simpl; [done|].
  apply not_elem_of_cons in Hin as [Hne Hin].
  rewrite IH by done. by rewrite lookup_alter_ne.
Qed.

Section EndFacts.
Context `{Collaborators}.

(** The state [Vote.end] leaves for a live vote that is not on a traveler,
    on a day with nobody about to die. *)
Lemma Vote_end_live_first g d self :
  current_day g = Some d → current_vote d = Some self →
  traveler (vote_obj g self) = false →
  about_to_die d = None →
  (∀ idn, idn ∈ announcements (vote_obj g self) → is_Some (channel g !! idn)) →
  let v := vote_obj g self in
  ∃ out,
    Vote_end self g
    = Ok tt (set_channel
               (unpinned (announcements v)
                  (<[next_message g := mkMessage (vote_end_text v (vote_result v)) true]>
                     (channel g)))
               (next_message g + 1)%Z
               (set_outbox out
                  (set_current_day
                     (Some (mkDay true true (past_votes d ++ [self]) None
                              (if vote_result v
                               then Some (nominee v, votes v, next_message g)
                               else None)
                              (vote_end_messages d ++ [next_message g])))
                     g))).
Proof.
  intros Hd Hv Htrav Hatd Hids.
  destruct g as [so sts dn cd pd pl vo eo ch nm ob ib].
  destruct d as [pms noms pv cv atd vem].
  simpl in *. subst cd cv atd. set (v := vo !!! self) in *.
  unfold Vote_end. mstep.
  rewrite bool_decide_eq_true_2 by done.
  mstep. mstep. mstep. mstep. fold v. rewrite Htrav. simpl.
  mstep.
  erewrite bind_Ok by (by apply Day_open_pms_Ok). simpl.
  erewrite bind_Ok by (by apply Day_open_noms_Ok). simpl.
  mstep. fold v. rewrite Htrav. simpl.
  unfold Vote_update_old_vote_end_message.
  destruct (vote_result v) eqn:Hres; simpl.
  all: erewrite bind_Ok;
    [|erewrite bind_Ok; [|mstep; reflexivity]; simpl; mstep; reflexivity].
  all: simpl; mstep; fold v.
  all: rewrite unpin_all_Ok;
    [ simpl; eexists; unfold vote_end_text; rewrite Htrav; reflexivity
    | simpl; intros idn Hin; rewrite lookup_insert; case_decide; [done|];
      by apply Hids ].
Qed.

End EndFacts.

(** X5.  The first vote of a day to end: a live vote that is not on a
    traveler, with nobody about to die yet.  [Vote.end] returns; the vote
    is archived in [past_votes], the day has no current vote, PMs and
    nominations are open.  The end message is sent pinned and stays
    pinned, its id is recorded among the day's end messages, and every
    announcement of the vote is unpinned.  With [votes >= majority] the
    message says so and the nominee is about to die on this tally and this
    message; otherwise the message says "not" and nobody is about to die.
    No player and no vote object changes. *)
Theorem X5_first_vote_of_the_day_ends `{Collaborators}
    (g : Game) (d : Day) (self : VoteRef) :
  current_day g = Some d →
  current_vote d = Some self →
  traveler (vote_obj g self) = false →
  about_to_die d = None →
  channel g !! next_message g = None →
  (∀ idn, idn ∈ announcements (vote_obj g self) → is_Some (channel g !! idn)) →
  let v := vote_obj g self in
  ∃ g' d',
    Vote_end self g = Ok tt g'
    ∧ current_day g' = Some d'
    ∧ current_vote d' = None ∧ past_votes d' = past_votes d ++ [self]
    ∧ is_pms d' = true ∧ is_noms d' = true
    ∧ vote_end_messages d' = vote_end_messages d ++ [next_message g]
    ∧ ((majority v <= inject_Z (votes v))%Q →
       about_to_die d' = Some (nominee v, votes v, next_message g)
       ∧ channel g' !! next_message g = Some (mkMessage (vote_end_text v true) true))
    ∧ (¬ (majority v <= inject_Z (votes v))%Q →
       about_to_die d' = None
       ∧ channel g' !! next_message g = Some (mkMessage (vote_end_text v false) true))
    ∧ (∀ idn, idn ∈ announcements v → pinned <$> (channel g' !! idn) = Some false)
    ∧ players g' = players g ∧ vote_objs g' = vote_objs g.
Proof.
  intros Hd Hv Htrav Hatd Hfresh Hids v.
  destruct (Vote_end_live_first g d self Hd Hv Htrav Hatd Hids) as [out Hend].
  fold v in Hend.
  assert (next_message g ∉ announcements v) as Hnew.
  { intros Hin. apply Hids in Hin as [m Hm]. congruence. }
  assert (vote_result v = true ↔ (majority v <= inject_Z (votes v))%Q) as Hres
    by apply Qle_bool_iff.
  eexists _, _. split; [exact Hend|]. simpl. split; [reflexivity|]. simpl.
  do 5 (split; [reflexivity|]).
  split; [|split; [|split; [|done]]].
  - intros Hle. apply Hres in Hle. rewrite Hle. split; [done|].
    rewrite unpinned_other by done. by rewrite lookup_insert_eq.
  - intros Hlt. destruct (vote_result v); [exfalso; by apply Hlt, Hres|].
    split; [done|]. rewrite unpinned_other by done. by rewrite lookup_insert_eq.
  - intros idn Hin. apply unpinned_unpins; [done|].
    rewrite lookup_insert. case_decide; [done|]. by apply Hids.
Qed.

(** X5 on the vote under way, ended with one yes vote against a majority of
    5/2: nobody is about to die. *)
Lemma X5_first_vote_witness :
  ∃ g' d',
    @Vote_end (table_collaborators scenario_A) 0 vote_under_way = Ok tt g'
    ∧ current_day g' = Some d'
    ∧ past_votes d' = [0] ∧ about_to_die d' = None
    ∧ channel g' !! 0%Z
      = Some (mkMessage
                ("1 votes on P2 (nominated by P0). They are not about to be executed."
                 +:+ Py.nl +:+ "- P3") true).
Proof.
  destruct (@X5_first_vote_of_the_day_ends (table_collaborators scenario_A)
              vote_under_way (mkDay false false [] (Some 0) None []) 0
              eq_refl eq_refl eq_refl eq_refl eq_refl)
    as (g' & d' & Hend & Hd' & _ & Hpast & _ & _ & _ & _ & Hfails & _).
  - intros idn Hin. by apply elem_of_nil in Hin.
  - exists g', d'. split; [exact Hend|]. split; [exact Hd'|]. split; [exact Hpast|].
    destruct Hfails as [Hatd Hmsg]; [by vm_compute|]. split; [exact Hatd|].
    etrans; [exact Hmsg|]. vm_compute. reflexivity.
Defined.

(** ** A day counter below one *)

Section CounterFacts.
Context `{Collaborators}.

Lemma evening_delete_below_one e : ∀ (k : nat) g n,
  effect_days g e = Some n → (n ≤ 0)%Z →
  repeat_call k (evening_delete e) g
  = Ok tt (match k with 0 => g | S _ => with_days e (n - Z.of_nat k) g end).
Proof.
  induction k as [|k IH]; intros g n Hdays Hn; [done|].
  simpl repeat_call. unfold bind.
  rewrite (evening_delete_decrement g e n) by (done || lia).
  rewrite (IH _ (n - 1)%Z) by (by rewrite effect_days_with_days || lia).
  f_equal. destruct k.
  - f_equal; lia.
  - rewrite with_days_twice. f_equal; lia.
Qed.

End CounterFacts.

(** X6.  An effect whose day counter is 0 or negative is never deleted by
    [evening_delete] or [morning_delete]: the test [days == 1] fails on
    every call, each call only lowers the counter by one, and
    [effect.delete] is not reached, however many cleanups follow. *)
Theorem X6_counter_below_one_never_deletes `{Collaborators}
    (g : Game) (e : EffectRef) (n : Z) (k : nat) :
  effect_days g e = Some n → (n ≤ 0)%Z →
  ∀ cleanup, cleanup = evening_delete ∨ cleanup = morning_delete →
    ∃ gk, repeat_call k (cleanup e) g = Ok tt gk
          ∧ gk = match k with 0 => g | S _ => with_days e (n - Z.of_nat k) g end
          ∧ effect_days gk e = Some (n - Z.of_nat k)%Z
          ∧ (is_Some (effect_objs g !! e) → is_Some (effect_objs gk !! e)).
Proof.
  intros Hdays Hn cleanup Hc.
  assert (cleanup = evening_delete) as ->
    by (destruct Hc as [->| ->]; [done | apply morning_delete_evening_delete]).
  eexists. split; [by apply evening_delete_below_one|]. split; [done|].
  destruct k.
  - split; [|done]. rewrite Hdays. f_equal. lia.
  - split; [apply effect_days_with_days|]. intros _.
    unfold with_days. simpl. by rewrite lookup_insert_eq.
Qed.

(** X6 on an effect decorated with [@evening_delete(("days", 0))]: after
    three evenings it is still there, its counter at -3. *)
Lemma X6_counter_witness :
  ∃ g3, @repeat_call 3 (@evening_delete (table_collaborators scenario_A) 0)
          (game_with_effect (evening_class 0)) = Ok tt g3
        ∧ effect_days g3 0 = Some (-3)%Z
        ∧ is_Some (effect_objs g3 !! 0).
Proof.
  destruct (@X6_counter_below_one_never_deletes (table_collaborators scenario_A)
              (game_with_effect (evening_class 0)) 0 0%Z 3 eq_refl ltac:(lia)
              evening_delete (or_introl eq_refl))
    as (g3 & Hcalls & _ & Hdays & Hthere).
  exists g3. split; [exact Hcalls|]. split; [exact Hdays|].
  apply Hthere. by eexists.
Defined.

(** ** Steps that leave the vote objects alone *)

Section Frame.
Context `{Collaborators}.
Variable P : Game → Prop.
Hypothesis P_frame : ∀ g g', vote_objs g' = vote_objs g → P g → P g'.

Lemma frame_modify (f : Game → Game) :
  (∀ g, vote_objs (f g) = vote_objs g) → keeps P (modify f).
Proof.
  intros Hf. apply keeps_modify. intros g HP. eapply P_frame; [apply Hf | done].
Qed.

Lemma frame_emit e : keeps P (emit e).
Proof. unfold emit. by apply frame_modify. Qed.

Lemma frame_send_channel text pin : keeps P (send_channel text pin).
Proof. intros g a g' HP [= _ <-]. by apply (P_frame g). Qed.

Lemma frame_fetch_message idn : keeps P (fetch_message idn).
Proof.
  intros g a g' HP. unfold fetch_message.
  destruct (channel g !! idn); [|done]. by intros [= _ <-].
Qed.

Lemma frame_edit_message idn text : keeps P (edit_message idn text).
Proof. unfold edit_message. by apply frame_modify. Qed.

Lemma frame_unpin_message idn : keeps P (unpin_message idn).
Proof. unfold unpin_message. by apply frame_modify. Qed.

Lemma frame_get_vote self : keeps P (get_vote self).
Proof. intros g a g' HP [= _ <-]. done. Qed.

Lemma frame_update_player p f : keeps P (modify (update_player p f)).
Proof. by apply frame_modify. Qed.

Lemma frame_the_day : keeps P the_day.
Proof.
  intros g a g' HP. unfold the_day, bind, get.
  destruct (current_day g); [|done]. by intros [= _ <-].
Qed.

Lemma frame_modify_day f : keeps P (modify_day f).
Proof.
  apply keeps_bind; [apply frame_the_day|]. intros d. by apply frame_modify.
Qed.

Lemma frame_unpin_all ids : keeps P (unpin_all ids).
Proof.
  apply keeps_for_each. intros idn.
  apply keeps_bind; [apply frame_fetch_message|]. intros m.
  apply keeps_if; [apply frame_unpin_message | apply keeps_ret].
Qed.

Lemma frame_notify_storytellers text : keeps P (notify_storytellers text).
Proof.
  apply keeps_bind; [apply keeps_get|]. intros g.
  apply keeps_bind; [|intros _; apply frame_emit].
  apply keeps_for_each. intros st. apply frame_emit.
Qed.

Lemma frame_open_pms : keeps P Day_open_pms.
Proof.
  apply keeps_bind; [apply frame_modify_day|]. intros _.
  apply frame_notify_storytellers.
Qed.

Lemma frame_open_noms : keeps P Day_open_noms.
Proof.
  apply keeps_bind; [apply frame_modify_day|]. intros _.
  apply frame_notify_storytellers.
Qed.

Ltac frame_step :=
  first
    [ apply frame_send_channel | apply frame_open_pms | apply frame_open_noms
    | apply frame_get_vote | apply frame_update_player | apply keeps_ret
    | apply frame_unpin_all | apply frame_fetch_message | apply frame_edit_message
    | apply frame_the_day | apply frame_modify_day
    | apply keeps_if
    | apply keeps_bind; [|intros ?] ].

Lemma frame_send_vote_end_message self : keeps P (Vote_send_vote_end_message self).
Proof.
  unfold Vote_send_vote_end_message.
  apply keeps_bind; [apply frame_get_vote|]. intros v.
  destruct (Vote_generate_vote_end_message v) as [text result].
  repeat frame_step.
Qed.

Lemma frame_update_old_vote_end_message self result :
  keeps P (Vote_update_old_vote_end_message self result).
Proof.
  unfold Vote_update_old_vote_end_message.
  apply keeps_bind; [apply frame_the_day|]. intros d.
  destruct (about_to_die d) as [[[x tally] a]|]; repeat frame_step.
Qed.

Lemma frame_Vote_end self :
  (∀ p, keeps P (character_exile p)) → keeps P (Vote_end self).
Proof.
  intros Hexile. unfold Vote_end.
  apply keeps_bind; [apply frame_the_day|]. intros d.
  apply keeps_if; [|apply keeps_ret].
  do 2 (apply keeps_bind; [apply frame_modify_day|]; intros ?).
  apply keeps_bind; [apply frame_send_vote_end_message|].
  intros [end_msg result].
  repeat first
    [ apply Hexile | apply frame_update_old_vote_end_message | frame_step ].
Qed.

End Frame.

(** ** The last voter *)

(** X7.  The voter now called is the last of the order and cannot vote.
    [Vote.call_next] casts the automatic "no" for that voter, which ends the
    vote; it then reads [self.to_vote] again for the notice "You have no
    dead votes", with the position past the end of the order: the call
    ends in [IndexError], after the vote has ended and with no notice
    sent. *)
Theorem X7_last_voter_unable_to_vote `{Collaborators}
    (fuel : nat) (g g1 : Game) (self : VoteRef) (voter : Player) :
  let v := vote_obj g self in
  let cast :=
    set_announcements (announcements v ++ [next_message g])
      (set_position (position v + 1) v) in
  let g_cast :=
    set_vote_objs (<[self := cast]> (vote_objs g))
      (set_channel
         (<[next_message g :=
              mkMessage (nick voter +:+ " votes " +:+ "no" +:+ ". "
                         +:+ Py.str (votes v) +:+ " votes.") true]> (channel g))
         (next_message g + 1)%Z g) in
  order v !! position v = Some voter →
  position v + 1 = length (order v) →
  can_vote g voter (traveler v) = false →
  (∀ p, keeps (λ g', vote_objs g' = vote_objs g_cast) (character_exile p)) →
  Vote_end self g_cast = Ok tt g1 →
  Vote_call_next (S fuel) self g = Raised IndexError g1
  ∧ vote_obj g1 self = cast.
Proof.
  intros v cast g_cast Hvoter Hlast Hcan Hexile Hend. unfold vote_obj in v.
  assert (vote_objs g1 = vote_objs g_cast) as Hframe.
  { refine (frame_Vote_end (λ g', vote_objs g' = vote_objs g_cast) _ self Hexile
              g_cast tt g1 eq_refl Hend).
    intros ga gb Hab Ha. by rewrite Hab. }
  assert (vote_obj g1 self = cast) as Hcast.
  { unfold vote_obj. rewrite Hframe. simpl. by rewrite lookup_total_insert_eq. }
  split; [|done].
  simpl Vote_call_next.
    erewrite bind_Ok by (by apply Vote_to_vote_Ok).
    mstep. mstep. fold v. rewrite Hcan. simpl.
    erewrite bind_Ok.
    + apply bind_Raised. unfold Vote_to_vote. erewrite bind_Ok by reflexivity.
      rewrite Hcast. simpl. rewrite Hlast.
      by rewrite lookup_ge_None_2.
    + unfold Vote_vote_with.
      erewrite bind_Ok by (by apply Vote_to_vote_Ok).
      rewrite bool_decide_eq_true_2 by done. simpl.
      mstep. mstep. mstep. mstep. mstep. 
      rewrite !lookup_total_insert_eq, insert_insert_eq. simpl. fold v.
      mstep. rewrite lookup_total_insert_eq. simpl. fold v.
      rewrite bool_decide_eq_true_2 by done. simpl.
      exact Hend.
Qed.

(** X7 on a vote whose last voter, the nominee, is dead with no dead vote
    left: the vote ends and is archived, its result announced in message 1,
    and the call ends in [IndexError]. *)
Lemma X7_last_voter_witness :
  ∃ g1 d1,
    @Vote_call_next (table_collaborators dead_nominee_tables) 1 0 last_voter_dead
    = Raised IndexError g1
    ∧ current_day g1 = Some d1
    ∧ current_vote d1 = None ∧ past_votes d1 = [0]
    ∧ content <$> (channel g1 !! 1%Z)
      = Some ("1 votes on P2 (nominated by P0). They are not about to be executed."
              +:+ Py.nl +:+ "- P3")
    ∧ outbox g1 = [SentMember 100 "PMs are now open."; StatusUpdated;
                   SentMember 100 "Nominations are now open."; StatusUpdated].
Proof.
  pose (g1 := state_after (@Vote_call_next (table_collaborators dead_nominee_tables) 1 0)
                last_voter_dead).
  destruct (@X7_last_voter_unable_to_vote (table_collaborators dead_nominee_tables)
              0 last_voter_dead g1 0 2) as [Hcall _].
  - reflexivity.
  - reflexivity.
  - vm_compute. reflexivity.
  - intros p g a g' Hg. unfold character_exile. simpl. by intros [= _ <-].
  - vm_compute. reflexivity.
  - exists g1. eexists. split; [exact Hcall|]. vm_compute. repeat split; reflexivity.
Defined.

(** ** Asking for a target *)

Section TargetFacts.
Context `{Collaborators}.

Lemma select_target_loop_fuel question allow_none condition :
  reads_no_answer condition →
  ∀ turns g, length (inbox g) < turns →
    select_target_loop turns question allow_none condition g ≠ OutOfFuel.
Proof.
  intros Hto. induction turns as [|turns IH]; intros g Hturns; [lia|].
  simpl. unfold bind at 1, select_target_turn, try_except.
  unfold bind at 1, get_input. unfold bind at 1, send_ctx, emit, modify. simpl.
  destruct (inbox g) as [|a rest] eqn:Hin; [done|].
  destruct (allow_none && bool_decide (Py.map_string Py.lower a ∈ none_words)); [done|].
  unfold bind at 1.
  match goal with |- context [to_player a [] (Some condition) ?g0] =>
    pose proof (Hto a g0) as Hlen; destruct (to_player a [] (Some condition) g0)
      as [p g'|e g'| |] end; try done.
  destruct (is_BadArgument e); [|done].
  unfold bind, send_ctx, emit, modify, ret. apply IH. simpl in *. lia.
Qed.

End TargetFacts.

(** X8.  [select_target] asks its question and reads one answer per turn of
    its [while True].  With no answer to read it stays waiting, the question
    asked.  An answer that is, in any mix of cases, one of the words for
    "no one" gives [None] when [allow_none] is set, and [to_player] is not
    consulted.  When [to_player] itself reads no answer, the answers waiting
    bound the turns: the loop never needs more of them than there are
    answers, so it returns, raises, or waits for the next answer. *)
Theorem X8_select_target_reads_one_answer_a_turn `{Collaborators}
    (question : string) (allow_none : bool) (condition : option Player → M bool)
    (g : Game) :
  let asked := set_outbox (outbox g ++ [SentCtx question]) g in
  (inbox g = [] → select_target question allow_none condition g = Awaiting asked)
  ∧ (∀ a rest, inbox g = a :: rest → allow_none = true →
       Py.map_string Py.lower a ∈ none_words →
       select_target question allow_none condition g = Ok None (set_inbox rest asked))
  ∧ (reads_no_answer condition →
     select_target question allow_none condition g ≠ OutOfFuel).
Proof.
  intros asked. split; [|split].
  - intros Hin. subst asked. unfold select_target. rewrite Hin. simpl.
    unfold bind at 1, select_target_turn, try_except.
    unfold bind at 1, get_input. unfold bind at 1, send_ctx, emit, modify. simpl.
    by destruct (inbox g).
  - intros a rest Hin -> Hword. subst asked. unfold select_target. rewrite Hin. simpl.
    unfold bind at 1, select_target_turn, try_except.
    unfold bind at 1, get_input. unfold bind at 1, send_ctx, emit, modify. simpl.
    destruct (inbox g) as [|a' rest']; [done|]. injection Hin as -> ->.
    by rewrite bool_decide_eq_true_2.
  - intros Hto. unfold select_target. apply select_target_loop_fuel; [done|lia].
Qed.

(** X8 with the answers "NoBody" and "P1" waiting: the first is taken for
    "no one" and "P1" is left to be read. *)
Lemma X8_select_target_witness :
  ∃ g',
    @select_target (table_collaborators scenario_A) "Who?" true (λ _, ret true)
      (game_with_answers ["NoBody"; "P1"]) = Ok None g'
    ∧ inbox g' = ["P1"]
    ∧ @select_target (table_collaborators scenario_A) "Who?" true (λ _, ret true)
        (game_with_answers ["P7"; "P1"]) ≠ OutOfFuel.
Proof.
  destruct (@X8_select_target_reads_one_answer_a_turn (table_collaborators scenario_A)
              "Who?" true (λ _, ret true) (game_with_answers ["NoBody"; "P1"]))
    as (_ & Hnone & _).
  destruct (@X8_select_target_reads_one_answer_a_turn (table_collaborators scenario_A)
              "Who?" true (λ _, ret true) (game_with_answers ["P7"; "P1"]))
    as (_ & _ & Hfuel).
  eexists. split; [apply (Hnone "NoBody" ["P1"]); [reflexivity..|]|].
  - by apply (bool_decide_unpack _).
  - split; [reflexivity|]. apply Hfuel.
    intros answer g. simpl.
    destruct (head _); simpl; lia.
Defined.
